(** * twcss-to-sass: the HTML-to-SASS pipeline of [src/twcss-to-sass.ts]

    A shallow embedding of the six functions of the module
    ([getAttributes], [getStyleContents], [filterHtmlData], [getClassName],
    [getSassTree], [convertToSass]) and of the module-level [defaultOptions],
    followed by the properties of the specification that concern them.

    Conventions of the embedding.
    - A JavaScript value that the code compares against [null] with [===]
      is a [Js A]: [undefined], [null] or a value.  Where the code only
      tests truthiness, [option] is used and [None] stands for both
      [undefined] and [null].
    - A JavaScript string is a [string], one character per code unit; it
      is truthy when it is not empty.
    - A node of the parse tree is a record with the optional fields the
      code reads and writes.  The code enriches nodes in place; the model
      returns the enriched nodes.
    - A [TypeError] raised by the code itself (reading [filter] of a
      [children] that is no array), or by himalaya when [convertToSass]
      hands it the [null] that the cleaner returned, is the [TypeError]
      of [result].
    - The two recursive functions recurse along the children of a node:
      the body of each is written for a list whose members come with the
      result of the recursive call on them, and [filterHtmlData_eq] and
      [getSassTreeOf_eq] give them back the shape of the source.
    - The collaborators that are not part of the file ([Utils.cleanText],
      [Utils.addMissingSuffix], [Utils.fixFomatterApplyIssue], himalaya's
      [parse], [slug], [beautifyCss.css]) are Section variables: total
      functions on the values of their argument types.  [parse] is a
      function of a string: himalaya reads the length of its argument
      and raises on [null]. *)

From Stdlib Require Import List String Ascii Bool Arith ZArith Lia.
From Stdlib Require Import Numbers.DecimalString.
Import ListNotations.
Open Scope list_scope.
Open Scope string_scope.

Set Implicit Arguments.

(** ** JavaScript values *)

Inductive Js (A : Type) : Type :=
| JsUndefined
| JsNull
| JsVal (a : A).
Arguments JsUndefined {A}.
Arguments JsNull {A}.
Arguments JsVal {A} a.

(** [v !== null] *)
Definition notNull {A} (v : Js A) : bool :=
  match v with JsNull => false | _ => true end.

(** [v === null] *)
Definition isNull {A} (v : Js A) : bool := negb (notNull v).

(** A value of type [T | null] stored in a field. *)
Definition ofNullable {A} (v : option A) : Js A :=
  match v with Some a => JsVal a | None => JsNull end.

(** Truthiness of a string. *)
Definition truthy (s : string) : bool :=
  match s with EmptyString => false | _ => true end.

(** Truthiness of a [string | null | undefined]. *)
Definition truthyO (s : option string) : bool :=
  match s with Some s => truthy s | None => false end.

(** [`${v}`] for a [string | undefined]. *)
Definition showO (s : option string) : string :=
  match s with Some s => s | None => "undefined" end.

(** [`${n}`] for a non-negative integer. *)
Definition showNat (n : nat) : string :=
  NilZero.string_of_uint (Nat.to_uint n).

(** [`${n}`] for a [number | undefined]. *)
Definition showNatO (n : option nat) : string :=
  match n with Some n => showNat n | None => "undefined" end.

(** [xs.join(sep)] on an array of strings. *)
Fixpoint join (sep : string) (xs : list string) : string :=
  match xs with
  | [] => ""
  | [x] => x
  | x :: rest => x ++ sep ++ join sep rest
  end.

(** [xs.join('')] on an array of [string | null | undefined]: the missing
    entries are printed as the empty string. *)
Fixpoint joinO (xs : list (option string)) : string :=
  match xs with
  | [] => ""
  | Some s :: rest => s ++ joinO rest
  | None :: rest => joinO rest
  end.

(** ** Errors raised by the code *)

Inductive result (A : Type) : Type :=
| Ok (a : A)
| TypeError.
Arguments Ok {A} a.
Arguments TypeError {A}.

Definition bind {A B} (m : result A) (k : A -> result B) : result B :=
  match m with Ok a => k a | TypeError => TypeError end.

Notation "x <- m ;; k" := (bind m (fun x => k))
  (at level 61, m at next level, right associativity).
Notation "' p <- m ;; k" := (bind m (fun x => let p := x in k))
  (at level 61, p pattern, m at next level, right associativity).

(** [xs.map(f)] where [f] may raise: the first error wins. *)
Fixpoint mapM {A B} (f : A -> result B) (xs : list A) : result (list B) :=
  match xs with
  | [] => Ok []
  | x :: rest => y <- f x ;; ys <- mapM f rest ;; Ok (y :: ys)
  end.

(** ** The data model: [interfaces/html-node] *)

Inductive NodeType := element | text | comment.

Definition NodeType_eqb (a b : NodeType) : bool :=
  match a, b with
  | element, element | text, text | comment, comment => true
  | _, _ => false
  end.

(** [x.type == t] *)
Definition typeIs (ty : option NodeType) (t : NodeType) : bool :=
  match ty with Some a => NodeType_eqb a t | None => false end.

(** [IHtmlNodeAttribute]: a raw key/value pair. *)
Record IHtmlNodeAttribute := mkAttr {
  key : string;
  value : option string
}.

(** [IAttribute]: the retained [style] and [class] values. *)
Record IAttribute := mkIAttribute {
  style : option string;
  class : option string
}.

(** [IHtmlNode].  [text_] is the label of the synthetic style node,
    [comment_] the derived [comment] field. *)
#[local] Unset Elimination Schemes.
Inductive IHtmlNode := mkNode {
  type : option NodeType;
  tagName : option string;
  attributes : option (list IHtmlNodeAttribute);
  children : Js (list IHtmlNode);
  content : option string;
  comment_ : option string;
  order : option nat;
  filterAttributes : Js IAttribute;
  text_ : option string
}.
#[local] Set Elimination Schemes.

Definition set_type (t : option NodeType) (n : IHtmlNode) : IHtmlNode :=
  mkNode t (tagName n) (attributes n) (children n) (content n)
         (comment_ n) (order n) (filterAttributes n) (text_ n).

Definition set_attributes (a : option (list IHtmlNodeAttribute)) (n : IHtmlNode) :=
  mkNode (type n) (tagName n) a (children n) (content n)
         (comment_ n) (order n) (filterAttributes n) (text_ n).

Definition set_children (c : Js (list IHtmlNode)) (n : IHtmlNode) : IHtmlNode :=
  mkNode (type n) (tagName n) (attributes n) c (content n)
         (comment_ n) (order n) (filterAttributes n) (text_ n).

Definition set_comment (c : option string) (n : IHtmlNode) : IHtmlNode :=
  mkNode (type n) (tagName n) (attributes n) (children n) (content n)
         c (order n) (filterAttributes n) (text_ n).

Definition set_order (o : option nat) (n : IHtmlNode) : IHtmlNode :=
  mkNode (type n) (tagName n) (attributes n) (children n) (content n)
         (comment_ n) o (filterAttributes n) (text_ n).

Definition set_filterAttributes (f : Js IAttribute) (n : IHtmlNode) : IHtmlNode :=
  mkNode (type n) (tagName n) (attributes n) (children n) (content n)
         (comment_ n) (order n) f (text_ n).

(** [x.tagName == s] and [x.tagName != s] *)
Definition tagIs (n : IHtmlNode) (s : string) : bool :=
  match tagName n with Some t => String.eqb t s | None => false end.

(** [x.type == 'element' || x.type == 'comment') && x.tagName != 'style'] *)
Definition isParentCandidate (x : IHtmlNode) : bool :=
  (typeIs (type x) element || typeIs (type x) comment) && negb (tagIs x "style").

(** ** Configuration: [interfaces/tw-to-sass-options] *)

Record CSSBeautifyOptions := mkFormatter {
  indent_size : Z;
  indent_char : string;
  max_preserve_newlines : Z;
  preserve_newlines : bool;
  end_with_newline : bool;
  wrap_line_length : Z;
  indent_empty_lines : bool
}.

Record ClassNameOptions := mkClassNameOptions {
  lowercase : bool;
  replaceWith : string;
  prefix : string;
  suffix : string
}.

Record ITwToSassOptions := mkOptions {
  formatOutput : bool;
  useCommentBlocksAsClassName : bool;
  maxClassNameLength : Z;
  printComments : bool;
  formatterOptions : CSSBeautifyOptions;
  classNameOptions : ClassNameOptions
}.

(** The [options] argument of [convertToSass]: every key is optional. *)
Record OptionsArg := mkOptionsArg {
  formatOutput' : option bool;
  useCommentBlocksAsClassName' : option bool;
  maxClassNameLength' : option Z;
  printComments' : option bool;
  formatterOptions' : option CSSBeautifyOptions;
  classNameOptions' : option ClassNameOptions
}.

Definition formatterOptions0 : CSSBeautifyOptions :=
  {| indent_size := 4;
     indent_char := " ";
     max_preserve_newlines := 5;
     preserve_newlines := true;
     end_with_newline := false;
     wrap_line_length := 0;
     indent_empty_lines := false |}.

(** The initial value of the module-level [defaultOptions]. *)
Definition defaultOptions0 : ITwToSassOptions :=
  {| formatOutput := true;
     useCommentBlocksAsClassName := false;
     maxClassNameLength := 50;
     printComments := true;
     formatterOptions := formatterOptions0;
     classNameOptions :=
       {| lowercase := true; replaceWith := "-"; prefix := ""; suffix := "" |} |}.

Definition orElse {A} (o : option A) (d : A) : A :=
  match o with Some a => a | None => d end.

(** [{ ...defaultOptions, ...options }]: a key of [options] replaces the
    key of the same name as a whole. *)
Definition spread (d : ITwToSassOptions) (o : OptionsArg) : ITwToSassOptions :=
  {| formatOutput := orElse (formatOutput' o) (formatOutput d);
     useCommentBlocksAsClassName :=
       orElse (useCommentBlocksAsClassName' o) (useCommentBlocksAsClassName d);
     maxClassNameLength := orElse (maxClassNameLength' o) (maxClassNameLength d);
     printComments := orElse (printComments' o) (printComments d);
     formatterOptions := orElse (formatterOptions' o) (formatterOptions d);
     classNameOptions := orElse (classNameOptions' o) (classNameOptions d) |}.

(** ** Tree normalizer *)

Section Normalizer.

(** [Utils.cleanText(text, flag)], from [string | null] to [string | null]. *)
Variable cleanText : option string -> bool -> option string.

(** [keys.includes(k)] *)
Definition includes (keys : list string) (k : string) : bool :=
  existsb (String.eqb k) keys.

(** [xs.find(x => x.key == k)?.value ?? null] *)
Definition findValue (k : string) (xs : list IHtmlNodeAttribute) : option string :=
  match find (fun x => String.eqb (key x) k) xs with
  | Some x => value x
  | None => None
  end.

(** The callback of [map] in [getAttributes]: the value is cleaned in the
    attribute object itself. *)
Definition cleanAttribute (a : IHtmlNodeAttribute) : IHtmlNodeAttribute :=
  mkAttr (key a) (cleanText (value a) false).

(** [getAttributes(attributes, keys)].  The first component is the
    [attributes] array after the call (its members with a key of [keys]
    have been cleaned in place), the second the value returned. *)
Definition getAttributes (attributes : option (list IHtmlNodeAttribute))
    (keys : list string) : option (list IHtmlNodeAttribute) * option IAttribute :=
  match attributes with
  | Some attrs =>
      let _attributes := map cleanAttribute (filter (fun a => includes keys (key a)) attrs) in
      (Some (map (fun a => if includes keys (key a) then cleanAttribute a else a) attrs),
       (* an array is truthy, also when empty *)
       Some {| style := findValue "style" _attributes;
               class := findValue "class" _attributes |})
  | None => (None, None)
  end.

(** The synthetic node built by [getStyleContents]. *)
Definition styleNode (styleContents : string) : IHtmlNode :=
  {| type := None;
     tagName := Some "style";
     attributes := None;
     children := JsUndefined;
     content := None;
     comment_ := None;
     order := None;
     filterAttributes := JsVal {| style := Some styleContents; class := None |};
     text_ := Some "STYLE" |}.

(** The callback of [filter] in [getStyleContents], [(x.type = 'text')]:
    an assignment, whose value is the string assigned. *)
Definition assignTypeText (x : IHtmlNode) : IHtmlNode * bool :=
  (set_type (Some text) x, truthy "text").

(** The callback of [map] in [getStyleContents]: the element after the
    call and the node returned. *)
Definition getStyleContent (element : IHtmlNode) : result (IHtmlNode * IHtmlNode) :=
  match children element with
  | JsVal cs =>
      let assigned := map assignTypeText cs in
      let kept := map fst (filter snd assigned) in
      let styleContents := joinO (map content kept) in
      Ok (set_children (JsVal (map fst assigned)) element, styleNode styleContents)
  | _ => TypeError
  end.

(** [getStyleContents(styleElements)]: the elements after the call and the
    array returned. *)
Definition getStyleContents (styleElements : list IHtmlNode)
    : result (list IHtmlNode * list IHtmlNode) :=
  rs <- mapM getStyleContent styleElements ;;
  Ok (map fst rs, map snd rs).

(** The result of [filterHtmlData] on an array: the array after the call
    (its members are enriched in place) and the value returned, a list or
    [null]. *)
Definition Filtered : Type := result (list IHtmlNode * option (list IHtmlNode)).

(** The [for] loop of [filterHtmlData]: [node] is [parentNode[i]], and the
    nodes of a parse tree are distinct objects, so the loop stops at [i]. *)
Definition previousNodes (parentNode : list IHtmlNode) (i : nat) : list IHtmlNode :=
  ((if (1 <=? i)%nat
   then match nth_error parentNode (i - 1) with Some p => [p] | None => [] end
   else [])
  ++
  (if (2 <=? i)%nat
   then match nth_error parentNode (i - 2) with Some p => [p] | None => [] end
   else []))%list.

(** [xs.filter((x) => x !== null)] *)
Fixpoint nonNull {A} (xs : list (option A)) : list A :=
  match xs with
  | [] => []
  | Some a :: rest => a :: nonNull rest
  | None :: rest => nonNull rest
  end.

(** The value assigned to [node.comment]. *)
Definition parentComment (previousNodes : list IHtmlNode) : string :=
  join ", "
    (rev (nonNull (map (fun x => cleanText (content x) true)
                       (filter (fun x => typeIs (type x) comment) previousNodes)))).

(** The callback of [parentNode.forEach], up to the test that pushes the
    node: [node] is [parentNode[i]] and [sub] is
    [filterHtmlData(node.children, nestedOrder + 1)]. *)
Definition visitNode (parentNode : list IHtmlNode) (nestedOrder i : nat)
    (node : IHtmlNode) (sub : Filtered) : result IHtmlNode :=
  node <- match children node with
          | JsVal _ =>
              let node := set_comment (Some (parentComment (previousNodes parentNode i))) node in
              let node := set_order (Some nestedOrder) node in
              ' (kids, children) <- sub ;;
              Ok (match children with
                  | Some ((_ :: _) as children) =>
                      set_children
                        (JsVal (filter (fun x => typeIs (type x) element) children)) node
                  | _ => set_children (JsVal kids) node
                  end)
          | _ => Ok node
          end ;;
  let (attrs, filterAttrs) := getAttributes (attributes node) ["class"; "style"] in
  Ok (set_filterAttributes (ofNullable filterAttrs) (set_attributes attrs node)).

(** [node.filterAttributes !== null || node.children !== null] *)
Definition retained (node : IHtmlNode) : bool :=
  notNull (filterAttributes node) || notNull (children node).

Definition indexed {A} (xs : list A) : list (nat * A) :=
  combine (seq 0 (List.length xs)) xs.

(** The array [htmlJson] once its style elements and its parent candidates
    have been updated in place. *)
Fixpoint writeBack (htmlJson styleElements parentNode : list IHtmlNode)
    : list IHtmlNode :=
  match htmlJson with
  | [] => []
  | x :: rest =>
      if isParentCandidate x then
        match parentNode with
        | p :: ps => p :: writeBack rest styleElements ps
        | [] => x :: writeBack rest styleElements []
        end
      else if tagIs x "style" then
        match styleElements with
        | s :: ss => s :: writeBack rest ss parentNode
        | [] => x :: writeBack rest [] parentNode
        end
      else x :: writeBack rest styleElements parentNode
  end.

(** The body of [filterHtmlData] for an array: every node of [htmlJson]
    comes with the result of the recursive call on its children at
    [nestedOrder + 1], which the code makes for the parent candidates. *)
Definition filterArray (htmlJson : list (IHtmlNode * Filtered)) (nestedOrder : nat)
    : Filtered :=
  let parentNode := filter (fun x => isParentCandidate (fst x)) htmlJson in
  let styleElements := filter (fun x => tagIs x "style") (map fst htmlJson) in
  ' (styleElements', styleList) <-
    match styleElements with
    | [] => Ok ([], [])
    | _ => getStyleContents styleElements
    end ;;
  match parentNode with
  | [] => Ok (writeBack (map fst htmlJson) styleElements' [], None)
  | _ =>
      visited <- mapM (fun x => visitNode (map fst parentNode) nestedOrder
                                          (fst x) (fst (snd x)) (snd (snd x)))
                      (indexed parentNode) ;;
      let elementList := filter retained visited in
      Ok (writeBack (map fst htmlJson) styleElements' visited,
          match elementList with
          | [] => None
          | _ => Some (styleList ++ elementList)%list
          end)
  end.

(** [filterHtmlData(node.children, nestedOrder)] *)
Fixpoint filterChildren (nestedOrder : nat) (node : IHtmlNode) {struct node}
    : Filtered :=
  match children node with
  | JsVal cs =>
      filterArray (map (fun c => (c, filterChildren (S nestedOrder) c)) cs) nestedOrder
  | _ => Ok ([], None)
  end.

(** [filterHtmlData(htmlJson, nestedOrder)] for an array [htmlJson]. *)
Definition filterHtmlData (htmlJson : list IHtmlNode) (nestedOrder : nat) : Filtered :=
  filterArray (map (fun c => (c, filterChildren (S nestedOrder) c)) htmlJson) nestedOrder.

End Normalizer.

(** ** Class name synthesizer and SASS tree builder *)

(** The line feed of the template strings. *)
Definition nl : string := String (ascii_of_nat 10) "".

(** [`${v}`] for a [string | null]. *)
Definition showNull (s : option string) : string :=
  match s with Some s => s | None => "null" end.

Section Builder.

(** [slug(text, { lower, replacement })] *)
Variable slug : string -> bool -> string -> string.

(** [Utils.addMissingSuffix(text, suffix)] *)
Variable addMissingSuffix : string -> string -> string.

(** The value of the module-level [defaultOptions] when the function runs. *)
Variable defaultOptions : ITwToSassOptions.

(** The [classComment] of [getClassName]. *)
Definition classComment (node : IHtmlNode) : string :=
  if printComments defaultOptions
  then "/* "
       ++ (if truthyO (comment_ node) then showO (comment_ node) else showO (tagName node))
       ++ " -> " ++ showNatO (order node) ++ " */"
  else "".

(** [getClassName(node, deepth)] *)
Definition getClassName (node : IHtmlNode) (deepth : nat) : string :=
  let className :=
    if truthyO (comment_ node) && useCommentBlocksAsClassName defaultOptions then
      let classSlug := prefix (classNameOptions defaultOptions) in
      let classSlug :=
        classSlug ++ slug (showO (comment_ node))
                          (lowercase (classNameOptions defaultOptions))
                          (replaceWith (classNameOptions defaultOptions)) in
      let classSlug :=
        if (Z.of_nat (String.length classSlug) >? maxClassNameLength defaultOptions)%Z
        then substring 0 (Z.to_nat (maxClassNameLength defaultOptions)) classSlug
        else classSlug in
      let classSlug := classSlug ++ suffix (classNameOptions defaultOptions) in
      "." ++ classSlug
    else if negb (tagIs node "div") then showO (tagName node)
    else ".class-" ++ showO (tagName node) ++ "-" ++ showNat deepth
  in
  classComment node ++ className.

(** The state shared by the calls of the [map] callback of one
    [getSassTree] call: the parameter [deepth] and the local [styleCount]. *)
Record Counters := mkCounters { deepth_ : nat; styleCount_ : nat }.

(** The region emitted for a style node. *)
Definition styleRegion (styleCount : nat) (style : option string) : string :=
  "// #region STYLE #" ++ showNat styleCount ++ nl
  ++ nl ++ showNull style ++ nl
  ++ "// #endregion" ++ nl ++ nl.

(** The [treeSTring] built from [node.filterAttributes]. *)
Definition ownDeclarations (filterAttrs : Js IAttribute) : string :=
  match filterAttrs with
  | JsVal fa =>
      (if truthyO (class fa) then "@apply " ++ showNull (class fa) ++ ";" else "")
      ++
      (if truthyO (style fa) then
         let style' := addMissingSuffix (showNull (style fa)) ";" in
         if truthy style' then nl ++ style' ++ nl else ""
       else "")
  | _ => ""
  end.

(** [Array.isArray(node.children) && node.children.length] *)
Definition hasChildren (node : IHtmlNode) : bool :=
  match children node with JsVal (_ :: _) => true | _ => false end.

(** The callback of [map] in [getSassTree]: [sub d] is
    [getSassTree(node, d)].  The value returned is a string or [null]; the
    counters are those left to the next node. *)
Definition renderNode (node : IHtmlNode) (sub : nat -> string) (c : Counters)
    : option string * Counters :=
  if isNull (filterAttributes node) && isNull (children node) then (Some "", c)
  else
    let deepth := if hasChildren node then S (deepth_ c) else deepth_ c in
    let subTreeSTring := if hasChildren node then sub deepth else "" in
    match tagIs node "style", filterAttributes node with
    | true, JsVal fa =>
        let styleCount := S (styleCount_ c) in
        (Some (styleRegion styleCount (style fa)), mkCounters deepth styleCount)
    | _, _ =>
        let treeSTring := ownDeclarations (filterAttributes node) in
        if truthy treeSTring || truthy subTreeSTring
        then (Some (getClassName node deepth ++ "{" ++ treeSTring ++ subTreeSTring ++ "}"),
              mkCounters deepth (styleCount_ c))
        else (None, mkCounters deepth (styleCount_ c))
    end.

(** [nodeTree.map(...)] *)
Fixpoint renderNodes (nodeTree : list (IHtmlNode * (nat -> string))) (c : Counters)
    : list (option string) :=
  match nodeTree with
  | [] => []
  | (node, sub) :: rest =>
      let (out, c') := renderNode node sub c in
      out :: renderNodes rest c'
  end.

(** The body of [getSassTree] for an array. *)
Definition sassOfArray (nodeTree : list (IHtmlNode * (nat -> string))) (deepth : nat)
    : string :=
  joinO (renderNodes nodeTree (mkCounters deepth 0)).

(** [getSassTree(node, deepth)] for a single node: the code calls it on
    nodes that have a non-empty array of children only. *)
Fixpoint getSassTreeOf (node : IHtmlNode) (deepth : nat) {struct node} : string :=
  match children node with
  | JsVal cs => sassOfArray (map (fun c => (c, getSassTreeOf c)) cs) deepth
  | _ => ""
  end.

(** [getSassTree(nodeTree, deepth)] for an array [nodeTree]. *)
Definition getSassTree (nodeTree : list IHtmlNode) (deepth : nat) : string :=
  sassOfArray (map (fun c => (c, getSassTreeOf c)) nodeTree) deepth.

End Builder.

(** ** The exported operation *)

Section Convert.

Variable cleanText : option string -> bool -> option string.
Variable addMissingSuffix : string -> string -> string.

(** [Utils.fixFomatterApplyIssue(content)] *)
Variable fixFomatterApplyIssue : string -> string.

(** himalaya's [parse], on a string. *)
Variable parse : string -> list IHtmlNode.

Variable slug : string -> bool -> string -> string.

(** [beautifyCss.css(source, options)] *)
Variable beautifyCss : string -> CSSBeautifyOptions -> string.

(** The part of [convertToSass] that follows the update of
    [defaultOptions]. *)
Definition convertHtml (defaultOptions : ITwToSassOptions) (html : string)
    : result (option string) :=
  match cleanText (Some html) false with
  | None =>
      (* [parse(null)]: the parser reads [str.length] and raises *)
      TypeError
  | Some html =>
      let htmlJson := parse html in
      ' (_, filteredHtmlData) <- filterHtmlData cleanText htmlJson 1 ;;
      match filteredHtmlData with
      | Some filteredHtmlData =>
          let sassTreeResult :=
            getSassTree slug addMissingSuffix defaultOptions filteredHtmlData 0 in
          if formatOutput defaultOptions
          then Ok (Some (fixFomatterApplyIssue
                           (beautifyCss sassTreeResult (formatterOptions defaultOptions))))
          else Ok (Some sassTreeResult)
      | None => Ok None
      end
  end.

(** [convertToSass(html, options)]: from the value of [defaultOptions]
    before the call to its value after the call and the value returned. *)
Definition convertToSass (defaultOptions : ITwToSassOptions)
    (html : option string) (options : option OptionsArg)
    : ITwToSassOptions * result (option string) :=
  match html with
  | Some html =>
      if truthy html && (0 <? String.length html)%nat then
        let defaultOptions :=
          match options with
          | Some options => spread defaultOptions options
          | None => defaultOptions
          end in
        (defaultOptions, convertHtml defaultOptions html)
      else (defaultOptions, Ok None)
  | None => (defaultOptions, Ok None)
  end.

End Convert.

(** ** Parse trees and stand-ins for the collaborators

    The shapes himalaya gives to the three kinds of node, and concrete
    collaborators under which the pipeline can be run on examples. *)

Definition elementNode (tag : string) (attrs : list IHtmlNodeAttribute)
    (kids : list IHtmlNode) : IHtmlNode :=
  mkNode (Some element) (Some tag) (Some attrs) (JsVal kids)
         None None None JsUndefined None.

Definition textNode (c : string) : IHtmlNode :=
  mkNode (Some text) None None JsUndefined (Some c) None None JsUndefined None.

Definition commentNode (c : string) : IHtmlNode :=
  mkNode (Some comment) None None JsUndefined (Some c) None None JsUndefined None.

Module Fixture.

Definition isSpace (c : ascii) : bool :=
  let n := nat_of_ascii c in
  (n =? 32)%nat || ((9 <=? n)%nat && (n <=? 13)%nat).

(** Drops the leading white space. *)
Fixpoint trimStart (s : string) : string :=
  match s with
  | String c rest => if isSpace c then trimStart rest else s
  | EmptyString => EmptyString
  end.

(** Replaces every run of white space by one blank and drops the run at
    the end; [pending] says that a run has been read and not yet printed. *)
Fixpoint squeeze (pending : bool) (s : string) : string :=
  match s with
  | EmptyString => EmptyString
  | String c rest =>
      if isSpace c then squeeze true rest
      else if pending then String " " (String c (squeeze false rest))
      else String c (squeeze false rest)
  end.

(** Removes the occurrences of the delimiter [d], read from left to right;
    [skip] characters of an occurrence are still to be dropped. *)
Fixpoint strip (d : string) (skip : nat) (s : string) : string :=
  match s with
  | EmptyString => EmptyString
  | String c rest =>
      match skip with
      | S k => strip d k rest
      | O => if truthy d && String.prefix d s
             then strip d (String.length d - 1) rest
             else String c (strip d 0 rest)
      end
  end.

(** Modelled from the spec: [Utils.cleanText] of [utils/utils], which is
    not among the sources.  It trims and collapses the white space of a
    text, in its second mode it strips the comment delimiters first, and
    it returns [null] for a text that is empty after cleaning. *)
Definition cleanText (t : option string) (comments : bool) : option string :=
  match t with
  | None => None
  | Some s =>
      let s := if comments then strip "-->" 0 (strip "<!--" 0 s) else s in
      match squeeze false (trimStart s) with
      | EmptyString => None
      | r => Some r
      end
  end.

(** [s.endsWith(suffix)] *)
Definition endsWith (s suffix : string) : bool :=
  let n := String.length s in
  let m := String.length suffix in
  (m <=? n)%nat && String.eqb (substring (n - m) m s) suffix.

(** Modelled from the spec: [Utils.addMissingSuffix] of [utils/utils],
    which is not among the sources.  It appends the suffix to a text that
    does not end with it. *)
Definition addMissingSuffix (s suffix : string) : string :=
  if endsWith s suffix then s else s ++ suffix.

Definition lowerChar (c : ascii) : ascii :=
  let n := nat_of_ascii c in
  if (65 <=? n)%nat && (n <=? 90)%nat then ascii_of_nat (n + 32) else c.

Definition isAlnum (c : ascii) : bool :=
  let n := nat_of_ascii c in
  ((48 <=? n)%nat && (n <=? 57)%nat)
  || ((65 <=? n)%nat && (n <=? 90)%nat)
  || ((97 <=? n)%nat && (n <=? 122)%nat).

(** The slug of a cleaned text of letters, digits, blanks and
    punctuation: letters and digits are kept (folded to lower case on
    demand), a blank becomes the replacement, the rest is dropped. *)
Fixpoint slug (s : string) (lower : bool) (replacement : string) : string :=
  match s with
  | EmptyString => EmptyString
  | String c rest =>
      if isAlnum c
      then String (if lower then lowerChar c else c) (slug rest lower replacement)
      else if isSpace c then replacement ++ slug rest lower replacement
      else slug rest lower replacement
  end.

(** The formatter is left out: the text goes through unchanged. *)
Definition beautifyCss (source : string) (_ : CSSBeautifyOptions) : string := source.

Definition fixFomatterApplyIssue (content_ : string) : string := content_.

(** The documents of the examples and their parse trees. *)
Definition emptyDiv : string := "<div></div>".
Definition emptyDivTree : list IHtmlNode := [elementNode "div" [] []].

Definition styleOnly : string := "<style>color: red</style>".
Definition styleOnlyTree : list IHtmlNode :=
  [elementNode "style" [] [textNode "color: red"]].

Definition styleInDiv : string := "<div class='a'><style>color: red</style></div>".
Definition styleInDivTree : list IHtmlNode :=
  [elementNode "div" [mkAttr "class" (Some "a")]
     [elementNode "style" [] [textNode "color: red"]]].

Definition styleAndButton : string :=
  "<style>color: red</style><button class='btn'></button>".
Definition styleAndButtonTree : list IHtmlNode :=
  [elementNode "style" [] [textNode "color: red"];
   elementNode "button" [mkAttr "class" (Some "btn")] []].

Definition twoComments : string :=
  "<!-- Card --><!-- Title --><div class='p-4'></div><p class='m-1'></p>".
Definition twoCommentsTree : list IHtmlNode :=
  [commentNode " Card "; commentNode " Title ";
   elementNode "div" [mkAttr "class" (Some "p-4")] [];
   elementNode "p" [mkAttr "class" (Some "m-1")] []].

Definition card : string :=
  "<div class='card'><!-- Title --><h1 class='t' id='x'>Hi</h1><style>a{}</style></div>".
Definition cardTree : list IHtmlNode :=
  [elementNode "div" [mkAttr "class" (Some "card")]
     [commentNode " Title ";
      elementNode "h1" [mkAttr "class" (Some "t"); mkAttr "id" (Some "x")] [textNode "Hi"];
      elementNode "style" [] [textNode "a{}"]]].

Definition twoStyles : string :=
  "<style>a{}</style><style>b{}</style><button class='btn'></button>".
Definition twoStylesTree : list IHtmlNode :=
  [elementNode "style" [] [textNode "a{}"];
   elementNode "style" [] [textNode "b{}"];
   elementNode "button" [mkAttr "class" (Some "btn")] []].

(** himalaya's [parse] on the documents above; any other text that is not
    empty stands for a document without markup, which has one text node;
    the empty text has no node. *)
Definition parse (h : string) : list IHtmlNode :=
  if String.eqb h emptyDiv then emptyDivTree
  else if String.eqb h styleOnly then styleOnlyTree
  else if String.eqb h styleInDiv then styleInDivTree
  else if String.eqb h styleAndButton then styleAndButtonTree
  else if String.eqb h twoComments then twoCommentsTree
  else if String.eqb h card then cardTree
  else if String.eqb h twoStyles then twoStylesTree
  else if truthy h then [textNode h]
  else [].

(** What normalization makes of two of the trees: the array after the
    call and the list returned. *)
Definition twoCommentsMut : list IHtmlNode :=
  Eval vm_compute in
    match filterHtmlData cleanText twoCommentsTree 1 with
    | Ok (mut, _) => mut
    | TypeError => []
    end.

Definition twoCommentsRes : list IHtmlNode :=
  Eval vm_compute in
    match filterHtmlData cleanText twoCommentsTree 1 with
    | Ok (_, Some res) => res
    | _ => []
    end.

Definition styleAndButtonMut : list IHtmlNode :=
  Eval vm_compute in
    match filterHtmlData cleanText styleAndButtonTree 1 with
    | Ok (mut, _) => mut
    | TypeError => []
    end.

Definition styleAndButtonRes : list IHtmlNode :=
  Eval vm_compute in
    match filterHtmlData cleanText styleAndButtonTree 1 with
    | Ok (_, Some res) => res
    | _ => []
    end.

Definition twoStylesMut : list IHtmlNode :=
  Eval vm_compute in
    match filterHtmlData cleanText twoStylesTree 1 with
    | Ok (mut, _) => mut
    | TypeError => []
    end.

Definition twoStylesRes : list IHtmlNode :=
  Eval vm_compute in
    match filterHtmlData cleanText twoStylesTree 1 with
    | Ok (_, Some res) => res
    | _ => []
    end.

(** A [div] that normalization has given the comment [abcdef]. *)
Definition namedDiv : IHtmlNode :=
  set_order (Some 1) (set_comment (Some "abcdef") (elementNode "div" [] [])).

(** Options with a prefix and a limit of six characters. *)
Definition prefixed : ITwToSassOptions :=
  {| formatOutput := false;
     useCommentBlocksAsClassName := true;
     maxClassNameLength := 6;
     printComments := false;
     formatterOptions := formatterOptions0;
     classNameOptions :=
       {| lowercase := true; replaceWith := "-"; prefix := "pre-"; suffix := "" |} |}.

(** Options that turn the formatter off. *)
Definition rawOutput : OptionsArg :=
  mkOptionsArg (Some false) None None None None None.

(** Options that name the nodes after their comments. *)
Definition namedByComment : OptionsArg :=
  mkOptionsArg (Some false) (Some true) None None None None.

(** [convertToSass] under the stand-ins. *)
Definition convertToSass :=
  convertToSass cleanText addMissingSuffix fixFomatterApplyIssue parse slug beautifyCss.

End Fixture.

(** ** Notions used in the statements *)

(** The text kept when a name is limited to [m] characters. *)
Definition truncate (m : Z) (s : string) : string :=
  if (Z.of_nat (String.length s) >? m)%Z then substring 0 (Z.to_nat m) s else s.

(** The selector of a node named after its comment, as the specification
    words it: the slug is truncated, then wrapped with prefix and suffix. *)
Definition selectorAsSpecified (slug : string -> bool -> string -> string)
    (o : ITwToSassOptions) (comment : string) : string :=
  "." ++ prefix (classNameOptions o)
      ++ truncate (maxClassNameLength o)
           (slug comment (lowercase (classNameOptions o)) (replaceWith (classNameOptions o)))
      ++ suffix (classNameOptions o).

(** The same selector with the prefix inside the truncated text. *)
Definition selectorOfComment (slug : string -> bool -> string -> string)
    (o : ITwToSassOptions) (comment : string) : string :=
  "." ++ truncate (maxClassNameLength o)
           (prefix (classNameOptions o)
            ++ slug comment (lowercase (classNameOptions o)) (replaceWith (classNameOptions o)))
      ++ suffix (classNameOptions o).

(** The selector of a node that is not named after a comment. *)
Definition selectorOfTag (tag : string) (d : nat) : string :=
  if String.eqb tag "div"
  then ".class-div-" ++ NilZero.string_of_uint (Nat.to_uint d)
  else tag.

(** The content of a style element as the specification words it: the
    text-typed children only. *)
Definition textOnlyContents (cs : list IHtmlNode) : string :=
  joinO (map content (filter (fun x => typeIs (type x) text) cs)).

(** [parentNode.forEach(...)] with the recursive calls in place: the
    parent candidates after the loop. *)
Definition visitParents (cleanText : option string -> bool -> option string)
    (parentNode : list IHtmlNode) (nestedOrder : nat) : result (list IHtmlNode) :=
  mapM (fun x => visitNode cleanText parentNode nestedOrder (fst x) (snd x)
                   (filterChildren cleanText (S nestedOrder) (snd x)))
       (indexed parentNode).

(** A process: [convertToSass] called again and again, each call starting
    from the [defaultOptions] the call before left. *)
Section Process.

Variable convert : ITwToSassOptions -> option string -> option OptionsArg
                   -> ITwToSassOptions * result (option string).

Fixpoint runCalls (defaultOptions : ITwToSassOptions)
    (calls : list (option string * option OptionsArg))
    : ITwToSassOptions * list (result (option string)) :=
  match calls with
  | [] => (defaultOptions, [])
  | (html, options) :: rest =>
      let (defaultOptions', r) := convert defaultOptions html options in
      let (final, rs) := runCalls defaultOptions' rest in
      (final, r :: rs)
  end.

End Process.

(** The cleaned text of a comment node, as a list of at most one text:
    no text for a node that is no comment or whose text is empty. *)
Definition commentText (cleanText : option string -> bool -> option string)
    (x : IHtmlNode) : list string :=
  if typeIs (type x) comment
  then match cleanText (content x) true with Some t => [t] | None => [] end
  else [].

(** The last two members of a list, in the order of the list. *)
Definition lastTwo {A} (xs : list A) : list A :=
  skipn (List.length xs - 2) xs.

(** The comment of a parent candidate as the specification words it,
    [pre] being the parent candidates before it at its level: the texts of
    the comments among the last two, the farther one first. *)
Definition commentAsSpecified (cleanText : option string -> bool -> option string)
    (pre : list IHtmlNode) : string :=
  join ", " (flat_map (commentText cleanText) (lastTwo pre)).

(** Whether a node carries a [class] or a [style] attribute. *)
Definition carriesClassOrStyle (n : IHtmlNode) : bool :=
  match attributes n with
  | Some attrs => existsb (fun a => includes ["class"; "style"] (key a)) attrs
  | None => false
  end.

(** A node as the parser leaves it in a document where no element
    carries a [class] or a [style] attribute and there is no style block:
    no [style] tag, no such attribute, no [filterAttributes] yet, and the
    same below. *)
Fixpoint bareNode (n : IHtmlNode) : bool :=
  negb (tagIs n "style")
  && negb (carriesClassOrStyle n)
  && match filterAttributes n with JsUndefined => true | _ => false end
  && match children n with JsVal cs => forallb bareNode cs | _ => true end.

(** A parent candidate that the loop of [filterHtmlData] keeps: it has an
    attribute list, or children that are not [null]. *)
Definition retainable (n : IHtmlNode) : bool :=
  isParentCandidate n
  && (match attributes n with Some _ => true | None => false end || notNull (children n)).

(** The text of a style element: the contents of its children. *)
Definition styleText (s : IHtmlNode) : string :=
  match children s with JsVal cs => joinO (map content cs) | _ => "" end.

(** The regions of the given style texts, numbered from [k + 1]. *)
Fixpoint regionsFrom (k : nat) (texts : list string) : string :=
  match texts with
  | [] => ""
  | t :: rest => styleRegion (S k) (Some t) ++ regionsFrom (S k) rest
  end.

(** The text [getSassTree] makes of the nodes [nodeTree] when its counters
    stand at [c]. *)
Definition sassFrom (slug : string -> bool -> string -> string)
    (addMissingSuffix : string -> string -> string) (o : ITwToSassOptions)
    (nodeTree : list IHtmlNode) (c : Counters) : string :=
  joinO (renderNodes slug addMissingSuffix o
           (map (fun n => (n, getSassTreeOf slug addMissingSuffix o n)) nodeTree) c).

(** Whether [needle] occurs in [hay]. *)
Fixpoint occursIn (needle hay : string) : bool :=
  String.prefix needle hay
  || match hay with
     | EmptyString => false
     | String _ rest => occursIn needle rest
     end.

(** An absent, empty or white-space-only input. *)
Definition blankInput (html : option string) : bool :=
  match html with
  | None => true
  | Some s => forallb Fixture.isSpace (list_ascii_of_string s)
  end.

(** A node that renders to nothing: no [style] tag, no declarations of its
    own, and the same below. *)
Fixpoint quiet (n : IHtmlNode) : bool :=
  negb (tagIs n "style")
  && match filterAttributes n with
     | JsVal fa => negb (truthyO (class fa)) && negb (truthyO (style fa))
     | _ => true
     end
  && match children n with JsVal cs => forallb quiet cs | _ => true end.

(** Normalizing the children of a bare node succeeds and leaves quiet
    nodes: the statement proved by induction on the tree. *)
Definition normalizesQuietly (cleanText : option string -> bool -> option string)
    (n : IHtmlNode) : Prop :=
  bareNode n = true ->
  forall d, exists mut res,
    filterChildren cleanText d n = Ok (mut, res)
    /\ forallb quiet mut = true
    /\ (forall r, res = Some r -> forallb quiet r = true).

(** The [defaultOptions] a call runs under. *)
Definition effective (d : ITwToSassOptions) (options : option OptionsArg)
    : ITwToSassOptions :=
  match options with Some o => spread d o | None => d end.

(** What [convertToSass] returns for the text [raw] of [getSassTree]. *)
Definition finish (fixFomatterApplyIssue : string -> string)
    (beautifyCss : string -> CSSBeautifyOptions -> string)
    (o : ITwToSassOptions) (raw : string) : string :=
  if formatOutput o
  then fixFomatterApplyIssue (beautifyCss raw (formatterOptions o))
  else raw.

(** The cleaned value of the first attribute with key [k], [null] when
    there is none. *)
Definition firstCleaned (cleanText : option string -> bool -> option string)
    (k : string) (attrs : list IHtmlNodeAttribute) : option string :=
  match find (fun a => String.eqb (key a) k) attrs with
  | Some a => cleanText (value a) false
  | None => None
  end.

(** A tree in which every node with the tag [style] has an array of
    children, as every element that the parser makes has. *)
Fixpoint wellShaped (n : IHtmlNode) : bool :=
  (negb (tagIs n "style") || match children n with JsVal _ => true | _ => false end)
  && match children n with JsVal cs => forallb wellShaped cs | _ => true end.

(** A parent candidate with a list of children carries the depth [d] as
    its [order], and the members of that list are levelled at [d + 1]. *)
Fixpoint levelled (d : nat) (n : IHtmlNode) : bool :=
  match children n with
  | JsVal cs =>
      negb (isParentCandidate n)
      || (match order n with Some k => (k =? d)%nat | None => false end
          && forallb (levelled (S d)) cs)
  | _ => true
  end.

(** [node.tagName == 'style' && node.filterAttributes]: the node is
    rendered as a region. *)
Definition isRegion (n : IHtmlNode) : bool :=
  tagIs n "style" && match filterAttributes n with JsVal _ => true | _ => false end.

(** Neither the node nor a node below it is rendered as a region. *)
Fixpoint regionFree (n : IHtmlNode) : bool :=
  negb (isRegion n)
  && match children n with JsVal cs => forallb regionFree cs | _ => true end.

(** The counters of a [getSassTree] call once the nodes [nodeTree] have
    gone through the [map] callback. *)
Fixpoint countersAfter (slug : string -> bool -> string -> string)
    (addMissingSuffix : string -> string -> string) (o : ITwToSassOptions)
    (nodeTree : list IHtmlNode) (c : Counters) : Counters :=
  match nodeTree with
  | [] => c
  | n :: rest =>
      countersAfter slug addMissingSuffix o rest
        (snd (renderNode slug addMissingSuffix o n
                (getSassTreeOf slug addMissingSuffix o n) c))
  end.

(** [html && html.length] *)
Definition passesGuard (html : option string) : bool :=
  match html with
  | Some h => truthy h && (0 <? String.length h)%nat
  | None => false
  end.

(** The [defaultOptions] left by a sequence of calls, read off the
    arguments alone. *)
Fixpoint configAfter (d : ITwToSassOptions)
    (calls : list (option string * option OptionsArg)) : ITwToSassOptions :=
  match calls with
  | [] => d
  | (html, options) :: rest =>
      configAfter (if passesGuard html then effective d options else d) rest
  end.

(** The line feed. *)
Definition LF : string := String "010"%char "".

(** The region of a style block as the specification writes it: the
    marker line with the numeral [n], an empty line, the text of the
    block, the closing marker line and an empty line. *)
Definition regionAsSpecified (n text : string) : string :=
  "// #region STYLE #" ++ n ++ LF ++ LF ++ text ++ LF ++ "// #endregion" ++ LF ++ LF.

(** The regions of the given texts as the specification writes them,
    numbered in decimal from [n]. *)
Fixpoint regionsAsSpecified (n : nat) (texts : list string) : string :=
  match texts with
  | [] => ""
  | t :: rest =>
      regionAsSpecified (NilZero.string_of_uint (Nat.to_uint n)) t
      ++ regionsAsSpecified (S n) rest
  end.

(** Key by key, [after] holds the value that [o] supplies, and the value
    of [before] for a key that [o] leaves out. *)
Definition mergedPerKey (before : ITwToSassOptions) (o : OptionsArg)
    (after : ITwToSassOptions) : Prop :=
  formatOutput after
  = match formatOutput' o with Some v => v | None => formatOutput before end
  /\ useCommentBlocksAsClassName after
     = match useCommentBlocksAsClassName' o with
       | Some v => v
       | None => useCommentBlocksAsClassName before
       end
  /\ maxClassNameLength after
     = match maxClassNameLength' o with Some v => v | None => maxClassNameLength before end
  /\ printComments after
     = match printComments' o with Some v => v | None => printComments before end
  /\ formatterOptions after
     = match formatterOptions' o with Some v => v | None => formatterOptions before end
  /\ classNameOptions after
     = match classNameOptions' o with Some v => v | None => classNameOptions before end.

(** The value of one key after a sequence of calls, read off the
    arguments: the value supplied last by a call whose text passes the
    guard, and [init] when no such call supplies the key. *)
Fixpoint lastSupplied {A} (get : OptionsArg -> option A) (init : A)
    (calls : list (option string * option OptionsArg)) : A :=
  match calls with
  | [] => init
  | (html, options) :: rest =>
      lastSupplied get
        (match options with
         | Some o =>
             if passesGuard html
             then match get o with Some v => v | None => init end
             else init
         | None => init
         end) rest
  end.

(** A node without children whose only declaration is the class list
    [cl]. *)
Definition leafWithClass (n : IHtmlNode) (cl : string) : Prop :=
  tagIs n "style" = false
  /\ children n = JsVal []
  /\ cl <> ""
  /\ exists fa, filterAttributes n = JsVal fa
               /\ class fa = Some cl /\ truthyO (style fa) = false.

(** More example documents. *)
Module Fixture2.

Definition button : string := "<button class='btn'></button>".
Definition buttonTree : list IHtmlNode :=
  [elementNode "button" [mkAttr "class" (Some "btn")] []].

(** himalaya's [parse] on the document above and on those of
    [Fixture]. *)
Definition parse (h : string) : list IHtmlNode :=
  if String.eqb h button then buttonTree else Fixture.parse h.

(** A [div] without children as normalization leaves it. *)
Definition leafDiv (cl : string) : IHtmlNode :=
  set_filterAttributes (JsVal {| style := None; class := Some cl |})
    (set_order (Some 1)
       (set_comment (Some "") (elementNode "div" [mkAttr "class" (Some cl)] []))).

(** What normalization makes of the tree of [Fixture.card]. *)
Definition cardMut : list IHtmlNode :=
  Eval vm_compute in
    match filterHtmlData Fixture.cleanText Fixture.cardTree 1 with
    | Ok (mut, _) => mut
    | TypeError => []
    end.

Definition cardRes : list IHtmlNode :=
  Eval vm_compute in
    match filterHtmlData Fixture.cleanText Fixture.cardTree 1 with
    | Ok (_, Some res) => res
    | _ => []
    end.

End Fixture2.

(** * Properties *)

(** ** Properties of the class name synthesizer *)

Section SynthesizerProperties.

Variable slug : string -> bool -> string -> string.
Variable o : ITwToSassOptions.

Lemma tagIs_eqb (node : IHtmlNode) (tag s : string) :
  tagName node = Some tag -> tagIs node s = String.eqb tag s.
Proof. unfold tagIs. intros ->. reflexivity. Qed.

(** C5: a node with no usable comment (no comment, an empty one, or
    [useCommentBlocksAsClassName] off) gets its bare tag name as selector
    when the tag is not [div], and [.class-div-<d>] when it is, [d] being
    the depth handed to [getClassName] and written in decimal: for a depth
    below ten the selector ends with that one digit, at depth ten it is
    [.class-div-10]; the selector follows the optional comment header. *)
Theorem getClassName_without_comment (node : IHtmlNode) (tag : string) (d : nat) :
  tagName node = Some tag ->
  truthyO (comment_ node) = false \/ useCommentBlocksAsClassName o = false ->
  getClassName slug o node d = classComment o node ++ selectorOfTag tag d
  /\ (tag <> "div" -> selectorOfTag tag d = tag)
  /\ (tag = "div" ->
      selectorOfTag tag d
      = ".class-" ++ tag ++ "-" ++ NilZero.string_of_uint (Nat.to_uint d))
  /\ (printComments o = false -> getClassName slug o node d = selectorOfTag tag d)
  /\ (tag <> "div" -> getClassName slug o node d = classComment o node ++ tag)
  /\ (tag = "div" -> d < 10 ->
      getClassName slug o node d
      = classComment o node ++ ".class-div-" ++ String (ascii_of_nat (48 + d)) "")
  /\ (tag = "div" -> d = 10 ->
      getClassName slug o node d = classComment o node ++ ".class-div-10").
Proof.
  intros Htag Hno.
  assert (Hsel : getClassName slug o node d = classComment o node ++ selectorOfTag tag d).
  { unfold getClassName.
    assert (Hc : truthyO (comment_ node) && useCommentBlocksAsClassName o = false).
    { destruct Hno as [-> | ->]; [reflexivity | apply andb_false_r]. }
    rewrite Hc, (tagIs_eqb _ _ Htag), Htag. unfold selectorOfTag. simpl showO.
    destruct (String.eqb_spec tag "div") as [-> | _]; reflexivity. }
  assert (Hother : tag <> "div" -> selectorOfTag tag d = tag).
  { intros Hne. unfold selectorOfTag.
    destruct (String.eqb_spec tag "div"); [contradiction | reflexivity]. }
  split; [exact Hsel |]. split; [exact Hother |].
  split; [intros ->; reflexivity |]. split; [| split; [| split]].
  - intros Hp. rewrite Hsel. unfold classComment. rewrite Hp. reflexivity.
  - intros Hne. rewrite Hsel, (Hother Hne). reflexivity.
  - intros -> Hd. rewrite Hsel. f_equal.
    do 10 (destruct d as [| d]; [reflexivity |]). lia.
  - intros -> ->. rewrite Hsel. reflexivity.
Qed.

Lemma substring_0_length (s : string) (m : nat) :
  m <= String.length s -> String.length (substring 0 m s) = m.
Proof.
  revert m. induction s as [| a s IH]; intros [| m] Hm; simpl in *; try lia.
  rewrite IH; lia.
Qed.

Lemma truncate_length (m : Z) (s : string) :
  (0 <= m)%Z -> (Z.of_nat (String.length (truncate m s)) <= m)%Z.
Proof.
  intros Hm. unfold truncate.
  destruct (Z.gtb_spec (Z.of_nat (String.length s)) m) as [Hgt | Hle].
  - assert (Hlen : String.length (substring 0 (Z.to_nat m) s) = Z.to_nat m).
    { apply substring_0_length. lia. }
    rewrite Hlen. lia.
  - exact Hle.
Qed.

(** C6 (amended): with [useCommentBlocksAsClassName] on, a node with a
    non-empty comment gets the selector made of a dot, the text
    [prefix ++ slug] cut to [maxClassNameLength] characters, and the
    suffix: the prefix counts in the limit, the suffix does not, and
    nothing is put between the parts.  With an empty prefix this is the
    selector of the specification. *)
Theorem getClassName_of_comment (node : IHtmlNode) (c : string) (d : nat) :
  comment_ node = Some c ->
  c <> "" ->
  useCommentBlocksAsClassName o = true ->
  getClassName slug o node d = classComment o node ++ selectorOfComment slug o c
  /\ ((0 <= maxClassNameLength o)%Z ->
      (Z.of_nat (String.length
         (truncate (maxClassNameLength o)
            (prefix (classNameOptions o)
             ++ slug c (lowercase (classNameOptions o)) (replaceWith (classNameOptions o)))))
       <= maxClassNameLength o)%Z)
  /\ (prefix (classNameOptions o) = "" ->
      selectorOfComment slug o c = selectorAsSpecified slug o c).
Proof.
  intros Hc Hne Hu. repeat split.
  - unfold getClassName. rewrite Hc, Hu. simpl.
    destruct c as [| a c']; [contradiction |]. reflexivity.
  - intros Hm. apply truncate_length. exact Hm.
  - intros Hp. unfold selectorOfComment, selectorAsSpecified. rewrite Hp. reflexivity.
Qed.

End SynthesizerProperties.

(** ** Properties of the style block extractor *)

Lemma kept_all (cs : list IHtmlNode) :
  map fst (filter snd (map assignTypeText cs)) = map (set_type (Some text)) cs.
Proof.
  induction cs as [| x cs IH]; simpl; [reflexivity |]. rewrite IH. reflexivity.
Qed.

Lemma content_set_type (cs : list IHtmlNode) (t : option NodeType) :
  map content (map (set_type t) cs) = map content cs.
Proof. rewrite map_map. reflexivity. Qed.

Lemma getStyleContent_array (elem : IHtmlNode) (cs : list IHtmlNode) :
  children elem = JsVal cs ->
  getStyleContent elem
  = Ok (set_children (JsVal (map (set_type (Some text)) cs)) elem,
        styleNode (joinO (map content cs))).
Proof.
  intros H. unfold getStyleContent. rewrite H.
  rewrite kept_all, content_set_type.
  replace (map fst (map assignTypeText cs)) with (map (set_type (Some text)) cs).
  - reflexivity.
  - rewrite map_map. reflexivity.
Qed.

(** C7: on a style element whose children are a comment [a] and a text
    [b], [getStyleContents] yields the style text [ab]: the comment
    contributes, whereas the text-typed children alone give [b]. *)
Theorem getStyleContents_keeps_comment :
  let kids := [commentNode "a"; textNode "b"] in
  getStyleContents [elementNode "style" [] kids]
  = Ok ([elementNode "style" [] [set_type (Some text) (commentNode "a"); textNode "b"]],
        [styleNode "ab"])
  /\ textOnlyContents kids = "b".
Proof. split; reflexivity. Qed.

(** ** Properties of the tree normalizer *)

Lemma mapM_map {A B C} (f : B -> result C) (g : A -> B) (xs : list A) :
  mapM f (map g xs) = mapM (fun x => f (g x)) xs.
Proof.
  induction xs as [| x xs IH]; simpl; [reflexivity |]. rewrite IH. reflexivity.
Qed.

Lemma mapM_ext_in {A B} (f g : A -> result B) (xs : list A) :
  (forall x, In x xs -> f x = g x) -> mapM f xs = mapM g xs.
Proof.
  induction xs as [| x xs IH]; intros H; simpl; [reflexivity |].
  rewrite (H x (or_introl eq_refl)), IH; [reflexivity |].
  intros y Hy. apply H. right. exact Hy.
Qed.

Lemma mapM_pure {A B} (f : A -> result B) (g : A -> B) (xs : list A) :
  (forall x, In x xs -> f x = Ok (g x)) -> mapM f xs = Ok (map g xs).
Proof.
  induction xs as [| x xs IH]; intros H; simpl; [reflexivity |].
  rewrite (H x (or_introl eq_refl)), IH; [reflexivity |].
  intros y Hy. apply H. right. exact Hy.
Qed.

Lemma mapM_length {A B} (f : A -> result B) (xs : list A) (ys : list B) :
  mapM f xs = Ok ys -> List.length ys = List.length xs.
Proof.
  revert ys. induction xs as [| x xs IH]; simpl; intros ys H.
  - injection H as <-. reflexivity.
  - destruct (f x) as [y |]; simpl in H; [| discriminate].
    destruct (mapM f xs) as [ys' |]; simpl in H; [| discriminate].
    injection H as <-. simpl. rewrite (IH ys' eq_refl). reflexivity.
Qed.

Lemma mapM_nth {A B} (f : A -> result B) (xs : list A) (ys : list B) (i : nat) (x : A) :
  mapM f xs = Ok ys -> nth_error xs i = Some x ->
  exists y, nth_error ys i = Some y /\ f x = Ok y.
Proof.
  revert ys i. induction xs as [| x0 xs IH]; simpl; intros ys i H Hi.
  - destruct i; discriminate.
  - destruct (f x0) as [y0 |] eqn:E0; simpl in H; [| discriminate].
    destruct (mapM f xs) as [ys' |]; simpl in H; [| discriminate].
    injection H as <-. destruct i as [| i]; simpl in *.
    + injection Hi as <-. exists y0. split; [reflexivity | exact E0].
    + apply (IH ys' i eq_refl Hi).
Qed.

Lemma mapM_Forall {A B} (f : A -> result B) (P : B -> Prop) (xs : list A) (ys : list B) :
  mapM f xs = Ok ys ->
  (forall x y, In x xs -> f x = Ok y -> P y) ->
  Forall P ys.
Proof.
  revert ys. induction xs as [| x xs IH]; simpl; intros ys H HP.
  - injection H as <-. constructor.
  - destruct (f x) as [y |] eqn:E; simpl in H; [| discriminate].
    destruct (mapM f xs) as [ys' |]; simpl in H; [| discriminate].
    injection H as <-. constructor.
    + apply (HP x y); [left; reflexivity | exact E].
    + apply IH; [reflexivity |]. intros x' y' Hin. apply HP. right. exact Hin.
Qed.

Lemma filter_pairs {A B} (p : A -> bool) (f : A -> B) (xs : list A) :
  filter (fun x => p (fst x)) (map (fun c => (c, f c)) xs)
  = map (fun c => (c, f c)) (filter p xs).
Proof.
  induction xs as [| x xs IH]; simpl; [reflexivity |].
  destruct (p x); simpl; rewrite IH; reflexivity.
Qed.

Lemma map_fst_pairs {A B} (f : A -> B) (xs : list A) :
  map fst (map (fun c => (c, f c)) xs) = xs.
Proof. rewrite map_map. simpl. apply map_id. Qed.

Lemma indexed_from_map {A B} (g : A -> B) (xs : list A) (k : nat) :
  combine (seq k (List.length (map g xs))) (map g xs)
  = map (fun x => (fst x, g (snd x))) (combine (seq k (List.length xs)) xs).
Proof.
  revert k. induction xs as [| x xs IH]; intros k; simpl; [reflexivity |].
  rewrite IH. reflexivity.
Qed.

Lemma indexed_map {A B} (g : A -> B) (xs : list A) :
  indexed (map g xs) = map (fun x => (fst x, g (snd x))) (indexed xs).
Proof. apply indexed_from_map. Qed.

Lemma nth_error_combine_seq {A} (xs : list A) (k i : nat) (x : A) :
  nth_error xs i = Some x ->
  nth_error (combine (seq k (List.length xs)) xs) i = Some (k + i, x).
Proof.
  revert k i. induction xs as [| x0 xs IH]; intros k i H.
  - destruct i; discriminate.
  - destruct i as [| i]; simpl in *.
    + injection H as <-. rewrite Nat.add_0_r. reflexivity.
    + rewrite (IH (S k) i H). f_equal. f_equal. lia.
Qed.

Lemma nth_error_indexed {A} (xs : list A) (i : nat) (x : A) :
  nth_error xs i = Some x -> nth_error (indexed xs) i = Some (i, x).
Proof. intros H. apply (nth_error_combine_seq xs 0 i H). Qed.

Lemma in_indexed {A} (xs : list A) (p : nat * A) :
  In p (indexed xs) -> nth_error xs (fst p) = Some (snd p).
Proof.
  intros H. apply In_nth_error in H. destruct H as [i Hi].
  destruct (nth_error xs i) as [x |] eqn:E.
  - rewrite (nth_error_indexed xs i E) in Hi. injection Hi as <-. exact E.
  - apply nth_error_None in E.
    assert (Hl : List.length (indexed xs) = List.length xs).
    { unfold indexed. rewrite length_combine, length_seq. lia. }
    assert (Hn : nth_error (indexed xs) i <> None) by (rewrite Hi; discriminate).
    apply nth_error_Some in Hn. lia.
Qed.

Section NormalizerProperties.

Variable cleanText : option string -> bool -> option string.

(** The recursive call of the model is the call of the code. *)
Lemma filterChildren_eq (node : IHtmlNode) (cs : list IHtmlNode) (d : nat) :
  children node = JsVal cs ->
  filterChildren cleanText d node = filterHtmlData cleanText cs d.
Proof. intros H. destruct node. simpl in *. subst. reflexivity. Qed.

(** [filterHtmlData] in the shape of its source. *)
Lemma filterHtmlData_eq (htmlJson : list IHtmlNode) (d : nat) :
  filterHtmlData cleanText htmlJson d =
  let parentNode := filter isParentCandidate htmlJson in
  let styleElements := filter (fun x => tagIs x "style") htmlJson in
  ' (styleElements', styleList) <-
    match styleElements with
    | [] => Ok ([], [])
    | _ => getStyleContents styleElements
    end ;;
  match parentNode with
  | [] => Ok (writeBack htmlJson styleElements' [], None)
  | _ =>
      visited <- visitParents cleanText parentNode d ;;
      Ok (writeBack htmlJson styleElements' visited,
          match filter retained visited with
          | [] => None
          | elementList => Some (styleList ++ elementList)%list
          end)
  end.
Proof.
  unfold filterHtmlData, filterArray, visitParents. cbv zeta.
  rewrite filter_pairs, !map_fst_pairs.
  destruct (match filter (fun x => tagIs x "style") htmlJson with
            | [] => Ok ([], [])
            | _ :: _ => getStyleContents (filter (fun x => tagIs x "style") htmlJson)
            end) as [[styleElements' styleList] |]; simpl; [| reflexivity].
  destruct (filter isParentCandidate htmlJson) as [| p ps]; [reflexivity |].
  set (parentNode := p :: ps).
  change (match map (fun c => (c, filterChildren cleanText (S d) c)) parentNode with
          | [] => ?a | _ :: _ => ?b end) with b.
  rewrite indexed_map, mapM_map. cbn [fst snd].
  destruct (mapM _ (indexed parentNode)) as [visited |]; simpl; [| reflexivity].
  destruct (filter retained visited); reflexivity.
Qed.

(** The fields that [visitNode] leaves alone. *)
Lemma visitNode_frame (parentNode : list IHtmlNode) (d i : nat)
    (node node' : IHtmlNode) (sub : Filtered) :
  visitNode cleanText parentNode d i node sub = Ok node' ->
  type node' = type node /\ tagName node' = tagName node
  /\ content node' = content node /\ text_ node' = text_ node.
Proof.
  unfold visitNode. intros H.
  destruct (children node) as [| | cs].
  - simpl in H. destruct (getAttributes _ _ _) in H. injection H as <-. auto.
  - simpl in H. destruct (getAttributes _ _ _) in H. injection H as <-. auto.
  - destruct sub as [[kids [[| c cs'] |]] |]; simpl in H; try discriminate;
      destruct (getAttributes _ _ _) in H; injection H as <-; auto.
Qed.

Lemma visitNode_candidate (parentNode : list IHtmlNode) (d i : nat)
    (node node' : IHtmlNode) (sub : Filtered) :
  visitNode cleanText parentNode d i node sub = Ok node' ->
  isParentCandidate node' = isParentCandidate node.
Proof.
  intros H. destruct (visitNode_frame _ _ _ _ _ H) as (Ht & Hg & _).
  unfold isParentCandidate, tagIs. rewrite Ht, Hg. reflexivity.
Qed.

Lemma visitNode_comment (parentNode : list IHtmlNode) (d i : nat)
    (node node' : IHtmlNode) (sub : Filtered) (cs : list IHtmlNode) :
  children node = JsVal cs ->
  visitNode cleanText parentNode d i node sub = Ok node' ->
  comment_ node' = Some (parentComment cleanText (previousNodes parentNode i))
  /\ order node' = Some d.
Proof.
  unfold visitNode. intros Hc H. rewrite Hc in H.
  destruct sub as [[kids [[| c cs'] |]] |]; simpl in H; try discriminate;
    destruct (getAttributes _ _ _) in H; injection H as <-; auto.
Qed.

(** A candidate without a list of children gets no comment. *)
Lemma visitNode_no_children (parentNode : list IHtmlNode) (d i : nat)
    (node node' : IHtmlNode) (sub : Filtered) :
  (forall cs, children node <> JsVal cs) ->
  visitNode cleanText parentNode d i node sub = Ok node' ->
  comment_ node' = comment_ node /\ order node' = order node.
Proof.
  unfold visitNode. intros Hc H.
  destruct (children node) as [| | cs].
  - simpl in H. destruct (getAttributes _ _ _) in H. injection H as <-. auto.
  - simpl in H. destruct (getAttributes _ _ _) in H. injection H as <-. auto.
  - destruct (Hc cs eq_refl).
Qed.


Lemma visitNode_children_null (parentNode : list IHtmlNode) (d i : nat)
    (node node' : IHtmlNode) (sub : Filtered) :
  visitNode cleanText parentNode d i node sub = Ok node' ->
  (children node' = JsNull <-> children node = JsNull).
Proof.
  unfold visitNode. intros H.
  destruct (children node) as [| | cs] eqn:Hc.
  - simpl in H. destruct (getAttributes _ _ _) in *. injection H as <-.
    simpl. rewrite Hc. split; discriminate.
  - simpl in H. destruct (getAttributes _ _ _) in *. injection H as <-.
    simpl. rewrite Hc. split; reflexivity.
  - destruct sub as [[kids [[| c cs'] |]] |]; simpl in H; try discriminate;
      destruct (getAttributes _ _ _) in *; injection H as <-;
      simpl; split; discriminate.
Qed.


(** What the style elements turn into. *)
Lemma styles_or_nothing (l : list IHtmlNode) :
  match l with [] => Ok ([], []) | _ => getStyleContents l end = getStyleContents l.
Proof. destruct l; reflexivity. Qed.

Lemma getStyleContents_cons (x : IHtmlNode) (l : list IHtmlNode) :
  getStyleContents (x :: l) =
  r <- getStyleContent x ;;
  rs <- getStyleContents l ;;
  Ok (fst r :: fst rs, snd r :: snd rs).
Proof.
  unfold getStyleContents. simpl.
  destruct (getStyleContent x) as [r |]; simpl; [| reflexivity].
  destruct (mapM getStyleContent l) as [rs |]; reflexivity.
Qed.

Lemma getStyleContent_inv (x x' sn : IHtmlNode) :
  getStyleContent x = Ok (x', sn) ->
  exists cs, children x = JsVal cs
    /\ x' = set_children (JsVal (map (set_type (Some text)) cs)) x
    /\ sn = styleNode (joinO (map content cs)).
Proof.
  intros H. destruct (children x) as [| | cs] eqn:Hc;
    try (unfold getStyleContent in H; rewrite Hc in H; discriminate).
  rewrite (getStyleContent_array _ Hc) in H. injection H as <- <-.
  exists cs. auto.
Qed.

Lemma getStyleContents_tags (l l' sl : list IHtmlNode) :
  getStyleContents l = Ok (l', sl) ->
  Forall (fun x => isParentCandidate x = false) l ->
  Forall (fun x => isParentCandidate x = false) l'.
Proof.
  revert l' sl. induction l as [| x l IH]; intros l' sl H Hl.
  - injection H as <- <-. constructor.
  - rewrite getStyleContents_cons in H.
    destruct (getStyleContent x) as [[x' sn] |] eqn:Ex; simpl in H; [| discriminate].
    destruct (getStyleContents l) as [[l0 sl0] |]; simpl in H; [| discriminate].
    injection H as <- <-. inversion Hl as [| ? ? Hx Hl']; subst.
    constructor; [| apply (IH l0 sl0 eq_refl Hl')].
    destruct (getStyleContent_inv _ Ex) as (cs & _ & -> & _). exact Hx.
Qed.

Lemma style_not_candidate (x : IHtmlNode) :
  tagIs x "style" = true -> isParentCandidate x = false.
Proof. unfold isParentCandidate. intros ->. apply andb_false_r. Qed.

(** The parent candidates of the array after the call are the nodes left
    by the loop. *)
Lemma writeBack_candidates (htmlJson styles visited : list IHtmlNode) :
  Forall (fun x => isParentCandidate x = true) visited ->
  Forall (fun x => isParentCandidate x = false) styles ->
  List.length visited = List.length (filter isParentCandidate htmlJson) ->
  filter isParentCandidate (writeBack htmlJson styles visited) = visited.
Proof.
  revert styles visited.
  induction htmlJson as [| x rest IH]; intros styles visited Hv Hs Hlen; simpl in *.
  - destruct visited; [reflexivity | discriminate].
  - destruct (isParentCandidate x) eqn:Ex.
    + destruct visited as [| p ps]; [discriminate |].
      inversion Hv as [| ? ? Hp Hps]; subst. simpl. rewrite Hp.
      f_equal. apply IH; auto.
    + destruct (tagIs x "style").
      * destruct styles as [| s0 ss].
        -- simpl. rewrite Ex. apply IH; auto.
        -- inversion Hs as [| ? ? Hs0 Hss]; subst. simpl. rewrite Hs0.
           apply IH; auto.
      * simpl. rewrite Ex. apply IH; auto.
Qed.

Lemma visitParents_candidates (parentNode visited : list IHtmlNode) (d : nat) :
  visitParents cleanText parentNode d = Ok visited ->
  Forall (fun x => isParentCandidate x = true) parentNode ->
  Forall (fun x => isParentCandidate x = true) visited.
Proof.
  intros H Hp. unfold visitParents in H.
  apply (mapM_Forall _ _ _ H). intros [i x] y Hin Hy. simpl in Hy.
  rewrite (visitNode_candidate _ _ _ _ _ Hy).
  apply in_indexed in Hin. simpl in Hin. apply nth_error_In in Hin.
  rewrite Forall_forall in Hp. apply Hp. exact Hin.
Qed.

Lemma visitParents_length (parentNode visited : list IHtmlNode) (d : nat) :
  visitParents cleanText parentNode d = Ok visited ->
  List.length visited = List.length parentNode.
Proof.
  intros H. unfold visitParents in H. rewrite (mapM_length _ _ H).
  unfold indexed. rewrite length_combine, length_seq. lia.
Qed.

Lemma filter_all {A} (p : A -> bool) (xs : list A) :
  Forall (fun x => p x = true) (filter p xs).
Proof. apply Forall_forall. intros x Hx. apply filter_In in Hx. apply Hx. Qed.

(** What a call of [filterHtmlData] that does not raise has done. *)
Lemma filterHtmlData_inv (htmlJson mut : list IHtmlNode) (d : nat)
    (res : option (list IHtmlNode)) :
  filterHtmlData cleanText htmlJson d = Ok (mut, res) ->
  exists styles' styleList visited,
    getStyleContents (filter (fun x => tagIs x "style") htmlJson) = Ok (styles', styleList)
    /\ visitParents cleanText (filter isParentCandidate htmlJson) d = Ok visited
    /\ mut = writeBack htmlJson styles' visited
    /\ filter isParentCandidate mut = visited
    /\ res = match filter retained visited with
             | [] => None
             | elementList => Some (styleList ++ elementList)%list
             end.
Proof.
  rewrite filterHtmlData_eq. cbv zeta. rewrite styles_or_nothing. intros H.
  destruct (getStyleContents _) as [[styles' styleList] |] eqn:Es; simpl in H;
    [| discriminate].
  exists styles', styleList.
  assert (Hst : Forall (fun x => isParentCandidate x = false) styles').
  { apply (getStyleContents_tags Es). apply Forall_forall. intros x Hx.
    apply filter_In in Hx. apply style_not_candidate. apply Hx. }
  destruct (filter isParentCandidate htmlJson) as [| p ps] eqn:Ep.
  - injection H as <- <-. exists []. repeat split; try reflexivity.
    apply writeBack_candidates; [constructor | exact Hst | rewrite Ep; reflexivity].
  - destruct (visitParents cleanText (p :: ps) d) as [visited |] eqn:Ev; simpl in H;
      [| discriminate].
    injection H as <- <-. exists visited. repeat split; try reflexivity.
    apply writeBack_candidates.
    + eapply visitParents_candidates; [exact Ev |]. rewrite <- Ep. apply filter_all.
    + exact Hst.
    + erewrite visitParents_length by exact Ev. rewrite Ep. reflexivity.
Qed.

Lemma last_two_cases {A} (pre : list A) :
  pre = [] \/ (exists a, pre = [a]) \/ (exists pre' b a, pre = (pre' ++ [b; a])%list).
Proof.
  destruct pre as [| a pre] using rev_ind; [left; reflexivity | right].
  destruct pre as [| b pre _] using rev_ind.
  - left. exists a. reflexivity.
  - right. exists pre, b, a. rewrite <- app_assoc. reflexivity.
Qed.

Lemma lastTwo_snoc2 {A} (pre : list A) (b a : A) :
  lastTwo (pre ++ [b; a]) = [b; a].
Proof.
  unfold lastTwo. rewrite length_app. simpl.
  replace (List.length pre + 2 - 2) with (List.length pre + 0) by lia.
  rewrite skipn_app, Nat.add_0_r, skipn_all.
  replace (List.length pre - List.length pre) with 0 by lia. reflexivity.
Qed.

(** The backward scan collects the last two candidates before the node,
    the nearer one first. *)
Lemma previousNodes_split (pre post : list IHtmlNode) (node : IHtmlNode) :
  previousNodes (pre ++ node :: post) (List.length pre) = rev (lastTwo pre).
Proof.
  destruct (last_two_cases pre) as [-> | [[a ->] | (pre' & b & a & ->)]].
  - reflexivity.
  - reflexivity.
  - rewrite lastTwo_snoc2. unfold previousNodes.
    rewrite length_app. simpl List.length.
    replace (1 <=? List.length pre' + 2)%nat with true
      by (symmetry; apply Nat.leb_le; lia).
    replace (2 <=? List.length pre' + 2)%nat with true
      by (symmetry; apply Nat.leb_le; lia).
    rewrite <- !app_assoc. simpl app.
    rewrite !nth_error_app2 by lia.
    replace (List.length pre' + 2 - 1 - List.length pre') with 1 by lia.
    replace (List.length pre' + 2 - 2 - List.length pre') with 0 by lia.
    reflexivity.
Qed.

Lemma nonNull_app {A} (xs ys : list (option A)) :
  nonNull (xs ++ ys) = (nonNull xs ++ nonNull ys)%list.
Proof.
  induction xs as [| [a |] xs IH]; simpl; [reflexivity | rewrite IH; reflexivity | exact IH].
Qed.

Lemma nonNull_rev {A} (xs : list (option A)) :
  nonNull (rev xs) = rev (nonNull xs).
Proof.
  induction xs as [| [a |] xs IH]; simpl; [reflexivity | |];
    rewrite nonNull_app, IH; simpl; [reflexivity | apply app_nil_r].
Qed.

Lemma commentTexts (xs : list IHtmlNode) :
  nonNull (map (fun x => cleanText (content x) true)
               (filter (fun x => typeIs (type x) comment) xs))
  = flat_map (commentText cleanText) xs.
Proof.
  induction xs as [| x xs IH]; simpl; [reflexivity |].
  unfold commentText at 1. destruct (typeIs (type x) comment); simpl; [| exact IH].
  destruct (cleanText (content x) true); simpl; rewrite IH; reflexivity.
Qed.

(** Reversing what the scan collected puts the texts in document order. *)
Lemma parentComment_rev (xs : list IHtmlNode) :
  parentComment cleanText (rev xs) = join ", " (flat_map (commentText cleanText) xs).
Proof.
  unfold parentComment.
  rewrite filter_rev, map_rev, nonNull_rev, rev_involutive, commentTexts.
  reflexivity.
Qed.

(** C3 (amended): every parent candidate is processed by normalization
    and stays at its place among the candidates of its level.  One that
    has an array of children leaves with a [comment] made of the cleaned
    texts of the comment nodes among the (at most two) parent candidates
    right before it at its level, empty texts dropped, joined with [", "]
    in document order, so that of two comments the farther one comes
    first; the candidates further back and those after the node play no
    part.  One that has no array of children, as a comment node, gets no
    derived comment: its [comment] is left as it was. *)
Theorem comment_of_predecessors (htmlJson mut pre post : list IHtmlNode)
    (res : option (list IHtmlNode)) (node : IHtmlNode) (d : nat) :
  filterHtmlData cleanText htmlJson d = Ok (mut, res) ->
  filter isParentCandidate htmlJson = (pre ++ node :: post)%list ->
  exists node',
    nth_error (filter isParentCandidate mut) (List.length pre) = Some node'
    /\ (forall cs, children node = JsVal cs ->
          comment_ node' = Some (commentAsSpecified cleanText pre)
          /\ (forall pre' b a tb ta,
                pre = (pre' ++ [b; a])%list ->
                type b = Some comment -> cleanText (content b) true = Some tb ->
                type a = Some comment -> cleanText (content a) true = Some ta ->
                comment_ node' = Some (tb ++ ", " ++ ta)))
    /\ ((forall cs, children node <> JsVal cs) -> comment_ node' = comment_ node).
Proof.
  intros H Hp.
  destruct (filterHtmlData_inv _ _ H) as (styles' & styleList & visited & _ & Hv & _ & -> & _).
  rewrite Hp in Hv. unfold visitParents in Hv.
  assert (Hn : nth_error (pre ++ node :: post) (List.length pre) = Some node).
  { rewrite nth_error_app2 by lia. rewrite Nat.sub_diag. reflexivity. }
  destruct (mapM_nth _ _ _ Hv (nth_error_indexed _ _ Hn)) as (node' & Hn' & Hvis).
  simpl in Hvis.
  exists node'. split; [exact Hn' |]. split.
  - intros cs Hc. destruct (visitNode_comment _ _ _ _ _ Hc Hvis) as [Hcom _].
    rewrite previousNodes_split, parentComment_rev in Hcom.
    split; [exact Hcom |].
    intros pre' b a tb ta -> Hb Htb Ha Hta. rewrite Hcom.
    unfold commentAsSpecified. rewrite lastTwo_snoc2. simpl.
    unfold commentText. rewrite Hb, Ha, Htb, Hta. reflexivity.
  - intros Hc. exact (proj1 (visitNode_no_children _ _ _ _ _ Hc Hvis)).
Qed.

Lemma getStyleContents_nodes (l l' sl : list IHtmlNode) :
  getStyleContents l = Ok (l', sl) ->
  Forall (fun s => exists c, s = styleNode c) sl.
Proof.
  revert l' sl. induction l as [| x l IH]; intros l' sl H.
  - injection H as <- <-. constructor.
  - rewrite getStyleContents_cons in H.
    destruct (getStyleContent x) as [[x' sn] |] eqn:Ex; simpl in H; [| discriminate].
    destruct (getStyleContents l) as [[l0 sl0] |]; simpl in H; [| discriminate].
    injection H as <- <-. constructor; [| apply (IH l0 sl0 eq_refl)].
    destruct (getStyleContent_inv _ Ex) as (cs & _ & _ & ->). eexists. reflexivity.
Qed.


Lemma filter_nonempty_eq {A} (l : list A) (sl res : list A) :
  match l with [] => None | x :: l' => Some (sl ++ x :: l')%list end = Some res ->
  res = (sl ++ l)%list.
Proof. destruct l; intros H; [discriminate | injection H as <-; reflexivity]. Qed.


Lemma writeBack_nil (htmlJson : list IHtmlNode) : writeBack htmlJson [] [] = htmlJson.
Proof.
  induction htmlJson as [| x rest IH]; simpl; [reflexivity |].
  rewrite IH. destruct (isParentCandidate x), (tagIs x "style"); reflexivity.
Qed.

Lemma getStyleContents_arrays (l : list IHtmlNode) :
  (forall x, In x l -> exists cs, children x = JsVal cs) ->
  exists l' sl, getStyleContents l = Ok (l', sl).
Proof.
  induction l as [| x l IH]; intros H.
  - exists [], []. reflexivity.
  - destruct (H x (or_introl eq_refl)) as [cs Hcs].
    destruct IH as (l' & sl & E); [intros y Hy; apply H; right; exact Hy |].
    rewrite getStyleContents_cons, (getStyleContent_array _ Hcs), E. simpl.
    eexists _, _. reflexivity.
Qed.

(** A parent candidate with no attribute list and [null] children is
    visited and not retained. *)
Lemma visitNode_dropped (parentNode : list IHtmlNode) (d i : nat) (node : IHtmlNode)
    (sub : Filtered) :
  attributes node = None -> children node = JsNull ->
  visitNode cleanText parentNode d i node sub
  = Ok (set_filterAttributes JsNull (set_attributes None node)).
Proof.
  intros Ha Hc. unfold visitNode. rewrite Hc. simpl. rewrite Ha. reflexivity.
Qed.

Lemma dropped_not_retained (node : IHtmlNode) :
  children node = JsNull ->
  retained (set_filterAttributes JsNull (set_attributes None node)) = false.
Proof. intros Hc. unfold retained. simpl. rewrite Hc. reflexivity. Qed.

Lemma filter_none {A} (p : A -> bool) (xs : list A) :
  (forall x, In x xs -> p x = false) -> filter p xs = [].
Proof.
  induction xs as [| x xs IH]; intros H; simpl; [reflexivity |].
  rewrite (H x (or_introl eq_refl)). apply IH. intros y Hy. apply H. right. exact Hy.
Qed.

(** Normalization returns [null] when no parent candidate is retained,
    whatever style elements there are. *)
Lemma filterHtmlData_null (htmlJson : list IHtmlNode) (d : nat) :
  (forall x, In x htmlJson -> tagIs x "style" = true -> exists cs, children x = JsVal cs) ->
  (forall x, In x htmlJson -> isParentCandidate x = true ->
             attributes x = None /\ children x = JsNull) ->
  exists mut, filterHtmlData cleanText htmlJson d = Ok (mut, None).
Proof.
  intros Hst Hcand. rewrite filterHtmlData_eq. cbv zeta. rewrite styles_or_nothing.
  destruct (getStyleContents_arrays (filter (fun x => tagIs x "style") htmlJson))
    as (styles' & styleList & Es).
  { intros x Hx. apply filter_In in Hx. apply Hst; apply Hx. }
  rewrite Es. simpl.
  destruct (filter isParentCandidate htmlJson) as [| p ps] eqn:Ep.
  - eexists. reflexivity.
  - rewrite <- Ep. unfold visitParents.
    rewrite (mapM_pure _ (fun x => set_filterAttributes JsNull (set_attributes None (snd x)))).
    + simpl. rewrite (filter_none retained).
      * eexists. reflexivity.
      * intros y Hy. apply in_map_iff in Hy. destruct Hy as ([i x] & <- & Hx).
        apply in_indexed in Hx. simpl in *. apply nth_error_In, filter_In in Hx.
        destruct (Hcand x (proj1 Hx) (proj2 Hx)) as [Ha Hc].
        apply dropped_not_retained. exact Hc.
    + intros [i x] Hx. apply in_indexed in Hx. simpl in *.
      apply nth_error_In, filter_In in Hx.
      destruct (Hcand x (proj1 Hx) (proj2 Hx)) as [Ha Hc].
      apply visitNode_dropped; assumption.
Qed.

End NormalizerProperties.

(** ** Induction on parse trees *)

(** A property holds of every node when it holds of a node as soon as it
    holds of the members of its array of children. *)
Lemma IHtmlNode_nested_ind (P : IHtmlNode -> Prop) :
  (forall n, (forall cs, children n = JsVal cs -> Forall P cs) -> P n) ->
  forall n, P n.
Proof.
  intros step. fix F 1. intros n. apply step.
  destruct n as [ty tg atts ch co cm od fa tx]. simpl.
  assert (all : match ch with JsVal l => Forall P l | _ => True end).
  { destruct ch as [| | l]; [exact I | exact I |].
    induction l as [| x r IH]; constructor; [apply F | exact IH]. }
  intros cs H. rewrite H in all. exact all.
Qed.

Lemma Forall_nested (P : IHtmlNode -> Prop) :
  (forall n, (forall cs, children n = JsVal cs -> Forall P cs) -> P n) ->
  forall l, Forall P l.
Proof.
  intros step l. apply Forall_forall. intros n _.
  apply IHtmlNode_nested_ind. exact step.
Qed.

(** ** Properties of the SASS tree builder *)


Lemma quiet_unfold (n : IHtmlNode) :
  quiet n =
  negb (tagIs n "style")
  && match filterAttributes n with
     | JsVal fa => negb (truthyO (class fa)) && negb (truthyO (style fa))
     | _ => true
     end
  && match children n with JsVal cs => forallb quiet cs | _ => true end.
Proof. destruct n. reflexivity. Qed.

Lemma bareNode_unfold (n : IHtmlNode) :
  bareNode n =
  negb (tagIs n "style")
  && negb (carriesClassOrStyle n)
  && match filterAttributes n with JsUndefined => true | _ => false end
  && match children n with JsVal cs => forallb bareNode cs | _ => true end.
Proof. destruct n. reflexivity. Qed.

Lemma quiet_inv (n : IHtmlNode) :
  quiet n = true ->
  tagIs n "style" = false
  /\ (forall fa, filterAttributes n = JsVal fa ->
        truthyO (class fa) = false /\ truthyO (style fa) = false)
  /\ (forall cs, children n = JsVal cs -> forallb quiet cs = true).
Proof.
  rewrite quiet_unfold. intros H.
  apply andb_true_iff in H. destruct H as [H Hk].
  apply andb_true_iff in H. destruct H as [Ht Hf].
  apply negb_true_iff in Ht. split; [exact Ht |]. split.
  - intros fa E. rewrite E in Hf. apply andb_true_iff in Hf.
    destruct Hf as [H1 H2]. apply negb_true_iff in H1, H2. auto.
  - intros cs E. rewrite E in Hk. exact Hk.
Qed.

Lemma bare_quiet : forall n, bareNode n = true -> quiet n = true.
Proof.
  apply (@IHtmlNode_nested_ind (fun n => bareNode n = true -> quiet n = true)).
  intros n IH. rewrite bareNode_unfold, quiet_unfold. intros H.
  apply andb_true_iff in H. destruct H as [H Hk].
  apply andb_true_iff in H. destruct H as [H Hf].
  apply andb_true_iff in H. destruct H as [Ht _].
  rewrite Ht. simpl.
  destruct (filterAttributes n); try discriminate. simpl.
  destruct (children n) as [| | cs] eqn:Ec; try reflexivity.
  specialize (IH cs eq_refl). rewrite forallb_forall in *. intros x Hx.
  rewrite Forall_forall in IH. apply IH; [exact Hx | apply Hk; exact Hx].
Qed.

Lemma append_nil_r (s : string) : s ++ "" = s.
Proof. induction s as [| a s IH]; simpl; [reflexivity | rewrite IH; reflexivity]. Qed.

Lemma append_assoc (s1 s2 s3 : string) : (s1 ++ s2) ++ s3 = s1 ++ (s2 ++ s3).
Proof. induction s1 as [| a s1 IH]; simpl; [reflexivity | rewrite IH; reflexivity]. Qed.

Section BuilderProperties.

Variable slug : string -> bool -> string -> string.
Variable addMissingSuffix : string -> string -> string.
Variable o : ITwToSassOptions.


(** The recursive call of the model is the call of the code. *)
Lemma getSassTreeOf_eq (node : IHtmlNode) (cs : list IHtmlNode) (d : nat) :
  children node = JsVal cs ->
  getSassTreeOf slug addMissingSuffix o node d = getSassTree slug addMissingSuffix o cs d.
Proof. intros H. destruct node. simpl in *. subst. reflexivity. Qed.

Lemma getSassTree_sassFrom (nodeTree : list IHtmlNode) (d : nat) :
  getSassTree slug addMissingSuffix o nodeTree d
  = sassFrom slug addMissingSuffix o nodeTree (mkCounters d 0).
Proof. reflexivity. Qed.

Lemma sassFrom_cons (n : IHtmlNode) (rest : list IHtmlNode) (c : Counters) :
  sassFrom slug addMissingSuffix o (n :: rest) c
  = joinO [fst (renderNode slug addMissingSuffix o n (getSassTreeOf slug addMissingSuffix o n) c)]
    ++ sassFrom slug addMissingSuffix o rest (snd (renderNode slug addMissingSuffix o n (getSassTreeOf slug addMissingSuffix o n) c)).
Proof.
  unfold sassFrom. simpl.
  destruct (renderNode slug addMissingSuffix o n (getSassTreeOf slug addMissingSuffix o n) c) as [[out |] c']; simpl; [| reflexivity].
  rewrite append_nil_r. reflexivity.
Qed.

(** A quiet node is rendered as nothing once its children are. *)
Lemma renderNode_quiet (n : IHtmlNode) (c : Counters) :
  quiet n = true ->
  (forall d, getSassTreeOf slug addMissingSuffix o n d = "") ->
  joinO [fst (renderNode slug addMissingSuffix o n (getSassTreeOf slug addMissingSuffix o n) c)] = "".
Proof.
  intros Hq Hsub. destruct (quiet_inv _ Hq) as (Ht & Hf & _).
  unfold renderNode.
  destruct (isNull (filterAttributes n) && isNull (children n)); [reflexivity |].
  rewrite Ht.
  assert (Hs : (if hasChildren n
                then getSassTreeOf slug addMissingSuffix o n (if hasChildren n then S (deepth_ c) else deepth_ c)
                else "") = "").
  { destruct (hasChildren n); [apply Hsub | reflexivity]. }
  rewrite Hs.
  assert (Ho : ownDeclarations addMissingSuffix (filterAttributes n) = "").
  { unfold ownDeclarations. destruct (filterAttributes n) as [| | fa]; try reflexivity.
    destruct (Hf fa eq_refl) as [-> ->]. reflexivity. }
  rewrite Ho. reflexivity.
Qed.

Lemma sassFrom_quiet (l : list IHtmlNode) :
  Forall (fun n => quiet n = true -> forall d, getSassTreeOf slug addMissingSuffix o n d = "") l ->
  forallb quiet l = true ->
  forall c, sassFrom slug addMissingSuffix o l c = "".
Proof.
  induction l as [| n l IH]; intros HP Hq c; [reflexivity |].
  simpl in Hq. apply andb_true_iff in Hq. destruct Hq as [Hn Hl].
  inversion HP as [| ? ? Pn Pl]; subst.
  rewrite sassFrom_cons, renderNode_quiet by auto. simpl.
  apply IH; assumption.
Qed.

Lemma getSassTreeOf_quiet : forall n, quiet n = true -> forall d, getSassTreeOf slug addMissingSuffix o n d = "".
Proof.
  apply (@IHtmlNode_nested_ind (fun n => quiet n = true -> forall d, getSassTreeOf slug addMissingSuffix o n d = "")).
  intros n IH Hq d. destruct (quiet_inv _ Hq) as (_ & _ & Hk).
  destruct (children n) as [| | cs] eqn:Ec.
  - destruct n; simpl in *; subst; reflexivity.
  - destruct n; simpl in *; subst; reflexivity.
  - erewrite getSassTreeOf_eq by exact Ec. rewrite getSassTree_sassFrom.
    apply sassFrom_quiet; [apply IH | apply Hk]; reflexivity.
Qed.

(** Quiet nodes make the empty stylesheet. *)
Lemma getSassTree_quiet (l : list IHtmlNode) (d : nat) :
  forallb quiet l = true -> getSassTree slug addMissingSuffix o l d = "".
Proof.
  intros Hq. rewrite getSassTree_sassFrom. apply sassFrom_quiet; [| exact Hq].
  apply Forall_forall. intros n _. apply getSassTreeOf_quiet.
Qed.

(** A synthetic style node is rendered as a region, and counted. *)
Lemma renderNode_styleNode (t : string) (sub : nat -> string) (c : Counters) :
  renderNode slug addMissingSuffix o (styleNode t) sub c
  = (Some (styleRegion (S (styleCount_ c)) (Some t)),
     mkCounters (deepth_ c) (S (styleCount_ c))).
Proof. reflexivity. Qed.

Lemma sassFrom_styleNodes (texts : list string) (rest : list IHtmlNode) (d k : nat) :
  sassFrom slug addMissingSuffix o (map styleNode texts ++ rest) (mkCounters d k)
  = regionsFrom k texts
    ++ sassFrom slug addMissingSuffix o rest (mkCounters d (k + List.length texts)).
Proof.
  revert k. induction texts as [| t texts IH]; intros k.
  - simpl. rewrite Nat.add_0_r. reflexivity.
  - simpl map. simpl app. rewrite sassFrom_cons, renderNode_styleNode.
    cbn [fst snd deepth_ styleCount_ joinO regionsFrom List.length].
    rewrite IH. replace (S k + List.length texts) with (k + S (List.length texts)) by lia.
    rewrite append_nil_r, append_assoc. reflexivity.
Qed.

End BuilderProperties.

(** ** Normalization of a document without styling *)

Lemma mapM_total {A B} (f : A -> result B) (xs : list A) :
  (forall x, In x xs -> exists y, f x = Ok y) -> exists ys, mapM f xs = Ok ys.
Proof.
  induction xs as [| x xs IH]; intros H.
  - exists []. reflexivity.
  - destruct (H x (or_introl eq_refl)) as [y Hy].
    destruct IH as [ys Hys]; [intros z Hz; apply H; right; exact Hz |].
    exists (y :: ys). simpl. rewrite Hy, Hys. reflexivity.
Qed.

Lemma mapM_existsb {A B} (f : A -> result B) (p : B -> bool) (q : A -> bool)
    (xs : list A) (ys : list B) :
  mapM f xs = Ok ys ->
  (forall x y, In x xs -> f x = Ok y -> p y = q x) ->
  existsb p ys = existsb q xs.
Proof.
  revert ys. induction xs as [| x xs IH]; simpl; intros ys H Hpq.
  - injection H as <-. reflexivity.
  - destruct (f x) as [y |] eqn:E; simpl in H; [| discriminate].
    destruct (mapM f xs) as [ys' |]; simpl in H; [| discriminate].
    injection H as <-. simpl.
    rewrite (Hpq x y (or_introl eq_refl) E). f_equal.
    apply IH; [reflexivity |]. intros x' y' Hin. apply Hpq. right. exact Hin.
Qed.

Lemma existsb_combine_seq {A} (q : A -> bool) (xs : list A) (k : nat) :
  existsb (fun x => q (snd x)) (combine (seq k (List.length xs)) xs) = existsb q xs.
Proof.
  revert k. induction xs as [| x xs IH]; intros k; simpl; [reflexivity |].
  rewrite IH. reflexivity.
Qed.

Lemma existsb_filter {A} (p q : A -> bool) (xs : list A) :
  existsb q (filter p xs) = existsb (fun x => p x && q x) xs.
Proof.
  induction xs as [| x xs IH]; simpl; [reflexivity |].
  destruct (p x); simpl; rewrite IH; reflexivity.
Qed.

Lemma filter_nil_existsb {A} (p : A -> bool) (xs : list A) :
  filter p xs = [] <-> existsb p xs = false.
Proof.
  induction xs as [| x xs IH]; simpl; [tauto |].
  destruct (p x); simpl; [split; discriminate | exact IH].
Qed.

Lemma forallb_filter {A} (q p : A -> bool) (xs : list A) :
  forallb q xs = true -> forallb q (filter p xs) = true.
Proof.
  rewrite !forallb_forall. intros H x Hx. apply filter_In in Hx. apply H, Hx.
Qed.

Lemma writeBack_forallb (q : IHtmlNode -> bool) (htmlJson styles visited : list IHtmlNode) :
  forallb q htmlJson = true -> forallb q styles = true -> forallb q visited = true ->
  forallb q (writeBack htmlJson styles visited) = true.
Proof.
  revert styles visited. induction htmlJson as [| x rest IH]; intros styles visited Hh Hs Hv.
  - reflexivity.
  - simpl in Hh. apply andb_true_iff in Hh. destruct Hh as [Hx Hrest]. simpl.
    destruct (isParentCandidate x).
    + destruct visited as [| p ps]; simpl in *.
      * rewrite Hx. apply IH; auto.
      * apply andb_true_iff in Hv. destruct Hv as [Hp Hps]. rewrite Hp. apply IH; auto.
    + destruct (tagIs x "style").
      * destruct styles as [| s0 ss]; simpl in *.
        -- rewrite Hx. apply IH; auto.
        -- apply andb_true_iff in Hs. destruct Hs as [Hs0 Hss]. rewrite Hs0. apply IH; auto.
      * simpl. rewrite Hx. apply IH; auto.
Qed.

Section BareDocuments.

Variable cleanText : option string -> bool -> option string.

(** Without a [class] or [style] attribute nothing is retained in
    [filterAttributes]. *)
Lemma getAttributes_bare (n : IHtmlNode) :
  carriesClassOrStyle n = false ->
  match ofNullable (snd (getAttributes cleanText (attributes n) ["class"; "style"])) with
  | JsVal fa => negb (truthyO (class fa)) && negb (truthyO (style fa))
  | _ => true
  end = true.
Proof.
  unfold carriesClassOrStyle. destruct (attributes n) as [attrs |]; [| reflexivity].
  intros H. unfold getAttributes. cbn [snd ofNullable].
  assert (E : filter (fun a => includes ["class"; "style"] (key a)) attrs = []).
  { apply filter_nil_existsb. exact H. }
  rewrite E. reflexivity.
Qed.

(** Whether the loop retains a node is settled by the node before the
    visit. *)
Lemma visitNode_retained (parentNode : list IHtmlNode) (d i : nat)
    (node node' : IHtmlNode) (sub : Filtered) :
  visitNode cleanText parentNode d i node sub = Ok node' ->
  retained node'
  = (match attributes node with Some _ => true | None => false end
     || notNull (children node)).
Proof.
  unfold visitNode, retained. intros H.
  destruct (children node) as [| | cs] eqn:Hc.
  - simpl in H. destruct (attributes node); simpl in H; injection H as <-;
      simpl; rewrite ?Hc; reflexivity.
  - simpl in H. destruct (attributes node); simpl in H; injection H as <-;
      simpl; rewrite ?Hc; reflexivity.
  - destruct sub as [[kids [[| c cs'] |]] |]; simpl in H; try discriminate;
      destruct (attributes node); simpl in H; injection H as <-;
      simpl; rewrite ?orb_true_r; reflexivity.
Qed.

Lemma bareNode_inv (n : IHtmlNode) :
  bareNode n = true ->
  tagIs n "style" = false /\ carriesClassOrStyle n = false
  /\ (forall cs, children n = JsVal cs -> forallb bareNode cs = true).
Proof.
  rewrite bareNode_unfold. intros H.
  apply andb_true_iff in H. destruct H as [H Hk].
  apply andb_true_iff in H. destruct H as [H _].
  apply andb_true_iff in H. destruct H as [Ht Hc].
  apply negb_true_iff in Ht, Hc. repeat split; auto.
  intros cs E. rewrite E in Hk. exact Hk.
Qed.

Lemma visitNode_bare (parentNode : list IHtmlNode) (d i : nat) (node : IHtmlNode) :
  bareNode node = true ->
  normalizesQuietly cleanText node ->
  exists node',
    visitNode cleanText parentNode d i node (filterChildren cleanText (S d) node) = Ok node'
    /\ quiet node' = true.
Proof.
  intros Hb HP. destruct (bareNode_inv _ Hb) as (Ht & Hc & _).
  pose proof (getAttributes_bare _ Hc) as Hfa.
  destruct (HP Hb (S d)) as (mut & res & Esub & Hmut & Hres).
  unfold visitNode. rewrite Esub.
  destruct (children node) as [| | cs] eqn:Ec; simpl.
  - destruct (getAttributes cleanText (attributes node) ["class"; "style"]) as [attrs fa].
    eexists. split; [reflexivity |]. rewrite quiet_unfold. unfold tagIs in *. simpl in *.
    rewrite Ec, Ht, Hfa. reflexivity.
  - destruct (getAttributes cleanText (attributes node) ["class"; "style"]) as [attrs fa].
    eexists. split; [reflexivity |]. rewrite quiet_unfold. unfold tagIs in *. simpl in *.
    rewrite Ec, Ht, Hfa. reflexivity.
  - assert (Hel : forall r, res = Some r ->
               forallb quiet (filter (fun x => typeIs (type x) element) r) = true).
    { intros r E. apply forallb_filter. apply Hres. exact E. }
    destruct res as [[| c cs'] |]; simpl;
      destruct (getAttributes cleanText (attributes node) ["class"; "style"]) as [attrs fa];
      (eexists; split; [reflexivity |]; rewrite quiet_unfold; unfold tagIs in *; simpl in *;
       rewrite Ht, Hfa; simpl).
    + exact Hmut.
    + specialize (Hel _ eq_refl). simpl in Hel. exact Hel.
    + exact Hmut.
Qed.

Lemma bare_no_styles (l : list IHtmlNode) :
  forallb bareNode l = true -> filter (fun x => tagIs x "style") l = [].
Proof.
  intros H. apply filter_none. intros x Hx.
  rewrite forallb_forall in H. apply (bareNode_inv _ (H x Hx)).
Qed.

Lemma existsb_retainable (l : list IHtmlNode) :
  existsb (fun x => match attributes x with Some _ => true | None => false end
                    || notNull (children x))
          (filter isParentCandidate l)
  = existsb retainable l.
Proof. rewrite existsb_filter. reflexivity. Qed.

(** One level of a bare document. *)
Lemma normalize_bare_level (l : list IHtmlNode) (d : nat) :
  Forall (normalizesQuietly cleanText) l ->
  forallb bareNode l = true ->
  exists mut res,
    filterHtmlData cleanText l d = Ok (mut, res)
    /\ forallb quiet mut = true
    /\ (forall r, res = Some r -> forallb quiet r = true)
    /\ (res = None <-> existsb retainable l = false).
Proof.
  intros HP Hb.
  assert (Hq : forallb quiet l = true).
  { rewrite forallb_forall in *. intros x Hx. apply bare_quiet, Hb, Hx. }
  rewrite filterHtmlData_eq. cbv zeta. rewrite (bare_no_styles _ Hb). simpl.
  destruct (filter isParentCandidate l) as [| p ps] eqn:Ep.
  - exists (writeBack l [] []), None. rewrite writeBack_nil.
    repeat split; try assumption; try discriminate.
    intros _. rewrite <- existsb_retainable, Ep. reflexivity.
  - rewrite <- Ep.
    assert (Hin : forall x, In x (indexed (filter isParentCandidate l)) ->
                  bareNode (snd x) = true /\ normalizesQuietly cleanText (snd x)).
    { intros [i x] Hx. apply in_indexed in Hx. simpl in *.
      apply nth_error_In, filter_In in Hx. destruct Hx as [Hx _].
      rewrite forallb_forall in Hb. rewrite Forall_forall in HP. auto. }
    destruct (mapM_total
                (fun x => visitNode cleanText (filter isParentCandidate l) d (fst x) (snd x)
                            (filterChildren cleanText (S d) (snd x)))
                (indexed (filter isParentCandidate l))) as [visited Hv].
    { intros x Hx. destruct (Hin x Hx) as [Hbx HPx].
      destruct (visitNode_bare (filter isParentCandidate l) d (fst x) Hbx HPx)
        as (y & Hy & _).
      exists y. exact Hy. }
    unfold visitParents. rewrite Hv. simpl.
    assert (Hvq : forallb quiet visited = true).
    { apply forallb_forall. apply Forall_forall.
      apply (mapM_Forall _ _ _ Hv). intros x y Hx Hy.
      destruct (Hin x Hx) as [Hbx HPx].
      destruct (visitNode_bare (filter isParentCandidate l) d (fst x) Hbx HPx)
        as (y' & Hy' & Hqy).
      rewrite Hy in Hy'. injection Hy' as ->. exact Hqy. }
    assert (Hex : existsb retained visited = existsb retainable l).
    { rewrite <- existsb_retainable.
      rewrite <- (existsb_combine_seq _ (filter isParentCandidate l) 0).
      apply (mapM_existsb _ _ _ _ Hv). intros x y _ Hy.
      apply (visitNode_retained _ _ _ _ _ Hy). }
    eexists _, _. split; [reflexivity |]. split; [| split].
    + apply writeBack_forallb; auto.
    + destruct (filter retained visited) as [| e es] eqn:Ef; intros r Hr;
        [discriminate |]. injection Hr as <-. simpl app. rewrite <- Ef.
      apply forallb_filter. exact Hvq.
    + rewrite <- Hex, <- filter_nil_existsb.
      destruct (filter retained visited); split; intros E;
        (reflexivity || discriminate).
Qed.

(** Normalizing a bare document succeeds at every level. *)
Lemma normalize_bare_tree : forall n, normalizesQuietly cleanText n.
Proof.
  apply IHtmlNode_nested_ind. intros n IH Hb d.
  destruct (children n) as [| | cs] eqn:Ec.
  - exists [], None. destruct n; simpl in *; subst. repeat split; try reflexivity.
    intros r; discriminate.
  - exists [], None. destruct n; simpl in *; subst. repeat split; try reflexivity.
    intros r; discriminate.
  - erewrite filterChildren_eq by exact Ec.
    destruct (@normalize_bare_level cs d (IH cs eq_refl))
      as (mut & res & E & Hm & Hr & _).
    { apply (bareNode_inv _ Hb). exact Ec. }
    exists mut, res. auto.
Qed.

(** A document without styling normalizes to [null] when no parent
    candidate of its top level is kept, and to quiet nodes otherwise. *)
Lemma normalize_bare (l : list IHtmlNode) (d : nat) :
  forallb bareNode l = true ->
  exists mut res,
    filterHtmlData cleanText l d = Ok (mut, res)
    /\ (forall r, res = Some r -> forallb quiet r = true)
    /\ (res = None <-> existsb retainable l = false).
Proof.
  intros Hb.
  destruct (@normalize_bare_level l d) as (mut & res & E & _ & Hr & Hn).
  - apply Forall_forall. intros n _. apply normalize_bare_tree.
  - exact Hb.
  - exists mut, res. auto.
Qed.

End BareDocuments.

(** ** Properties of the exported operation *)

Lemma getStyleContents_texts (l l' sl : list IHtmlNode) :
  getStyleContents l = Ok (l', sl) -> sl = map styleNode (map styleText l).
Proof.
  revert l' sl. induction l as [| x l IH]; intros l' sl H.
  - injection H as <- <-. reflexivity.
  - rewrite getStyleContents_cons in H.
    destruct (getStyleContent x) as [[x' sn] |] eqn:Ex; simpl in H; [| discriminate].
    destruct (getStyleContents l) as [[l0 sl0] |]; simpl in H; [| discriminate].
    injection H as <- <-. simpl. rewrite (IH l0 sl0 eq_refl).
    destruct (getStyleContent_inv _ Ex) as (cs & Ec & _ & ->).
    unfold styleText. rewrite Ec. reflexivity.
Qed.

Lemma truthy_nonempty (h : string) :
  h <> "" -> truthy h && (0 <? String.length h)%nat = true.
Proof. destruct h; [contradiction | reflexivity]. Qed.

Section ConvertProperties.

Variable cleanText : option string -> bool -> option string.
Variable addMissingSuffix : string -> string -> string.
Variable fixFomatterApplyIssue : string -> string.
Variable parse : string -> list IHtmlNode.
Variable slug : string -> bool -> string -> string.
Variable beautifyCss : string -> CSSBeautifyOptions -> string.

Local Notation "'convert'" :=
  (convertToSass cleanText addMissingSuffix fixFomatterApplyIssue parse slug beautifyCss).
Local Notation "'convertText'" :=
  (convertHtml cleanText addMissingSuffix fixFomatterApplyIssue parse slug beautifyCss).

(** A call on a text that is not empty: the options are merged, then the
    text is converted under the merged values. *)
Lemma convertToSass_nonempty (d0 : ITwToSassOptions) (h : string)
    (options : option OptionsArg) :
  h <> "" ->
  convert d0 (Some h) options = (effective d0 options, convertText (effective d0 options) h).
Proof.
  intros Hh. unfold convertToSass. rewrite (truthy_nonempty Hh).
  destruct options; reflexivity.
Qed.

(** A text that the cleaner turns into [null] is handed to the parser as
    [null], which raises. *)
Lemma convertHtml_of_null (o : ITwToSassOptions) (h : string) :
  cleanText (Some h) false = None -> convertText o h = TypeError.
Proof. intros E. unfold convertHtml. rewrite E. reflexivity. Qed.

(** What the conversion returns once normalization has returned. *)
Lemma convertHtml_of_normalized (o : ITwToSassOptions) (h t : string)
    (mut : list IHtmlNode) (res : option (list IHtmlNode)) :
  cleanText (Some h) false = Some t ->
  filterHtmlData cleanText (parse t) 1 = Ok (mut, res) ->
  convertText o h
  = match res with
    | Some nodes =>
        Ok (Some (finish fixFomatterApplyIssue beautifyCss o
                    (getSassTree slug addMissingSuffix o nodes 0)))
    | None => Ok None
    end.
Proof.
  intros Et H. unfold convertHtml, finish. rewrite Et, H. simpl.
  destruct res; [destruct (formatOutput o) |]; reflexivity.
Qed.

(** The merge, key by key. *)
Lemma spread_perKey (d : ITwToSassOptions) (o : OptionsArg) :
  mergedPerKey d o (spread d o).
Proof.
  unfold mergedPerKey, spread, orElse. simpl.
  split; [| split; [| split; [| split; [| split]]]]; reflexivity.
Qed.

(** The regions that the builder emits are those of the specification. *)
Lemma regionsFrom_asSpecified (k : nat) (texts : list string) :
  regionsFrom k texts = regionsAsSpecified (S k) texts.
Proof.
  revert k. induction texts as [| t texts IH]; intros k; [reflexivity |].
  cbn [regionsFrom regionsAsSpecified]. rewrite IH. reflexivity.
Qed.

(** A document without styling converts to [null] or to the empty
    stylesheet. *)
Lemma convertToSass_bare (d0 : ITwToSassOptions) (h t : string)
    (options : option OptionsArg) :
  h <> "" ->
  cleanText (Some h) false = Some t ->
  forallb bareNode (parse t) = true ->
  convert d0 (Some h) options
  = (effective d0 options,
     if existsb retainable (parse t)
     then Ok (Some (finish fixFomatterApplyIssue beautifyCss (effective d0 options) ""))
     else Ok None).
Proof.
  intros Hh Et Hb. rewrite (convertToSass_nonempty _ _ Hh). f_equal.
  destruct (normalize_bare cleanText _ 1 Hb) as (mut & res & E & Hq & Hn).
  rewrite (convertHtml_of_normalized _ Et E).
  destruct res as [nodes |].
  - rewrite (getSassTree_quiet _ _ _ _ _ (Hq nodes eq_refl)).
    destruct (existsb retainable (parse t)); [reflexivity |].
    destruct Hn as [_ Hn]. discriminate (Hn eq_refl).
  - destruct Hn as [Hn _]. rewrite (Hn eq_refl). reflexivity.
Qed.

(** C1 (amended): on a document whose cleaned text is not [null], in
    which no element carries a [class] or a [style] attribute and which
    has no style block, [convertToSass] returns [null] when no element or
    comment node of the top level is kept by normalization, that is when
    none has an attribute list or children that are not [null]; otherwise
    it returns what comes of the empty stylesheet: the empty string when
    [formatOutput] is off, the formatter's rendering of the empty string
    when it is on. *)
Theorem convertToSass_without_styling (d0 : ITwToSassOptions) (h t : string)
    (options : option OptionsArg) :
  h <> "" ->
  cleanText (Some h) false = Some t ->
  forallb bareNode (parse t) = true ->
  convert d0 (Some h) options
  = (effective d0 options,
     if existsb retainable (parse t)
     then Ok (Some (finish fixFomatterApplyIssue beautifyCss (effective d0 options) ""))
     else Ok None)
  /\ (formatOutput (effective d0 options) = false ->
      existsb retainable (parse t) = true ->
      snd (convert d0 (Some h) options) = Ok (Some "")).
Proof.
  intros Hh Et Hb. pose proof (convertToSass_bare d0 options Hh Et Hb) as E.
  split; [exact E |]. intros Hf Hr. rewrite E, Hr. unfold finish. rewrite Hf.
  reflexivity.
Qed.

(** C2 (amended): when normalization of the parsed top level returns a
    list, which takes an element or comment node kept at that level, the
    text of [getSassTree] begins with one region for each style element of
    the top level, numbered in decimal from 1 in document order: the line
    [// #region STYLE #n], an empty line, the text of the style element,
    the line [// #endregion] and an empty line, outside any selector
    block; the rendering of the kept nodes follows.  The first region
    carries the numeral 1 and the second the numeral 2.  [convertToSass]
    returns that text, unchanged when [formatOutput] is off. *)
Theorem style_regions_at_top_level (d0 : ITwToSassOptions) (h t : string)
    (options : option OptionsArg) (mut res : list IHtmlNode) :
  h <> "" ->
  cleanText (Some h) false = Some t ->
  filterHtmlData cleanText (parse t) 1 = Ok (mut, Some res) ->
  let o := effective d0 options in
  let styles := filter (fun x => tagIs x "style") (parse t) in
  let blocks :=
    sassFrom slug addMissingSuffix o
      (filter retained (filter isParentCandidate mut))
      (mkCounters 0 (List.length styles)) in
  let raw := regionsAsSpecified 1 (map styleText styles) ++ blocks in
  getSassTree slug addMissingSuffix o res 0 = raw
  /\ convert d0 (Some h) options
     = (o, Ok (Some (finish fixFomatterApplyIssue beautifyCss o raw)))
  /\ (forall s, styles = [s] ->
        raw = "// #region STYLE #1" ++ LF ++ LF ++ styleText s ++ LF
              ++ "// #endregion" ++ LF ++ LF ++ blocks)
  /\ (forall s1 s2 rest, styles = s1 :: s2 :: rest ->
        exists tail,
          raw = "// #region STYLE #1" ++ LF ++ LF ++ styleText s1 ++ LF
                ++ "// #endregion" ++ LF ++ LF
                ++ "// #region STYLE #2" ++ LF ++ LF ++ styleText s2 ++ LF
                ++ "// #endregion" ++ LF ++ LF ++ tail).
Proof.
  intros Hh Et H o styles blocks raw.
  assert (Hraw : getSassTree slug addMissingSuffix o res 0 = raw).
  { destruct (filterHtmlData_inv _ _ _ H)
      as (styles' & styleList & visited & Hs & _ & _ & Hm & Hres).
    symmetry in Hres. apply filter_nonempty_eq in Hres.
    rewrite (getStyleContents_texts _ Hs) in Hres.
    unfold raw, blocks, styles.
    rewrite Hres, getSassTree_sassFrom, sassFrom_styleNodes, Hm.
    rewrite length_map, regionsFrom_asSpecified. reflexivity. }
  split; [exact Hraw |]. split; [| split].
  - rewrite (convertToSass_nonempty _ _ Hh).
    rewrite (convertHtml_of_normalized _ Et H). fold o. rewrite Hraw. reflexivity.
  - intros s E. unfold raw. rewrite E. cbn [map regionsAsSpecified].
    unfold regionAsSpecified. rewrite append_nil_r, !append_assoc. reflexivity.
  - intros s1 s2 rest E. unfold raw. rewrite E. cbn [map regionsAsSpecified].
    unfold regionAsSpecified. rewrite !append_assoc. eexists. reflexivity.
Qed.


(** C9 (amended): on an absent or empty text [convertToSass] returns
    [null], leaves [defaultOptions] as it is and reaches no collaborator.
    A text that is not empty, be it white space only, passes the guard:
    the options are merged into [defaultOptions], key by key, and the
    conversion of the text starts under the merged value. *)
Theorem convertToSass_empty_or_blank (d0 : ITwToSassOptions) (html : option string)
    (options : option OptionsArg) :
  (html = None \/ html = Some "" -> convert d0 html options = (d0, Ok None))
  /\ (forall h, html = Some h -> h <> "" ->
        convert d0 html options
        = (effective d0 options, convertText (effective d0 options) h)
        /\ (forall o, options = Some o ->
              mergedPerKey d0 o (fst (convert d0 html options)))
        /\ (options = None -> fst (convert d0 html options) = d0)).
Proof.
  split.
  - intros [-> | ->]; reflexivity.
  - intros h -> Hh. rewrite (convertToSass_nonempty _ _ Hh).
    split; [reflexivity |]. split.
    + intros o ->. apply spread_perKey.
    + intros ->. reflexivity.
Qed.

(** C10: when the parsed top level holds style elements and no element or
    comment node with another tag that normalization keeps, the texts of
    the style elements are extracted, [filterHtmlData] returns [null]
    without them, and [convertToSass] returns [null]. *)
Theorem styles_without_parents_give_null (htmlJson : list IHtmlNode) (d : nat) :
  (exists s, In s htmlJson /\ tagIs s "style" = true) ->
  (forall x, In x htmlJson -> tagIs x "style" = true -> exists cs, children x = JsVal cs) ->
  (forall x, In x htmlJson -> isParentCandidate x = true ->
             attributes x = None /\ children x = JsNull) ->
  (exists styles' styleList,
     getStyleContents (filter (fun x => tagIs x "style") htmlJson) = Ok (styles', styleList)
     /\ styleList <> [])
  /\ (exists mut, filterHtmlData cleanText htmlJson d = Ok (mut, None))
  /\ (forall d0 h t options,
        h <> "" -> cleanText (Some h) false = Some t -> parse t = htmlJson ->
        convert d0 (Some h) options = (effective d0 options, Ok None)).
Proof.
  intros (s & Hs & Hst) Harr Hcand. split; [| split].
  - destruct (getStyleContents_arrays (filter (fun x => tagIs x "style") htmlJson))
      as (styles' & styleList & E).
    { intros x Hx. apply filter_In in Hx. apply Harr; apply Hx. }
    exists styles', styleList. split; [exact E |].
    rewrite (getStyleContents_texts _ E). intros Hnil.
    apply map_eq_nil, map_eq_nil in Hnil.
    assert (Hin : In s (filter (fun x => tagIs x "style") htmlJson)).
    { apply filter_In. auto. }
    rewrite Hnil in Hin. exact Hin.
  - apply filterHtmlData_null; assumption.
  - intros d0 h t options Hh Et Hp.
    destruct (filterHtmlData_null cleanText htmlJson 1 Harr Hcand) as [mut E].
    rewrite (convertToSass_nonempty _ _ Hh).
    rewrite <- Hp in E. rewrite (convertHtml_of_normalized _ Et E). reflexivity.
Qed.

End ConvertProperties.

(** ** The properties on the example documents *)

Module Examples.

Import Fixture.

(** A [div] at depth 2 under the initial options, as normalization at
    depth 1 leaves it. *)
Lemma getClassName_without_comment_witness :
  let node := set_order (Some 1) (set_comment (Some "") (elementNode "div" [] [])) in
  (tagName node = Some "div"
   /\ (truthyO (comment_ node) = false \/ useCommentBlocksAsClassName defaultOptions0 = false))
  /\ getClassName slug defaultOptions0 node 2 = "/* div -> 1 */.class-div-2".
Proof.
  intros node.
  assert (H1 : tagName node = Some "div") by reflexivity.
  assert (H2 : truthyO (comment_ node) = false
               \/ useCommentBlocksAsClassName defaultOptions0 = false)
    by (left; reflexivity).
  split; [split; assumption |].
  refine (proj1 (proj2 (proj2 (proj2 (proj2 (proj2
            (getClassName_without_comment slug defaultOptions0 node 2 H1 H2))))))
            eq_refl _).
  repeat constructor.
Defined.

(** The node named [abcdef] under a prefix and a limit of six. *)
Lemma getClassName_of_comment_witness :
  (comment_ namedDiv = Some "abcdef" /\ "abcdef" <> ""
   /\ useCommentBlocksAsClassName prefixed = true)
  /\ getClassName slug prefixed namedDiv 0
     = classComment prefixed namedDiv ++ selectorOfComment slug prefixed "abcdef".
Proof.
  assert (H1 : comment_ namedDiv = Some "abcdef") by reflexivity.
  assert (H2 : "abcdef" <> "") by discriminate.
  assert (H3 : useCommentBlocksAsClassName prefixed = true) by reflexivity.
  split; [repeat split; assumption |].
  exact (proj1 (getClassName_of_comment slug prefixed namedDiv 0 H1 H2 H3)).
Defined.

(** C6, as the specification words it, fails under a prefix: the limit of
    six is applied to [pre-abcdef], which leaves [pre-ab], and not to the
    slug [abcdef], which would leave [pre-abcdef]. *)
Lemma getClassName_truncates_prefix :
  comment_ namedDiv = Some "abcdef"
  /\ useCommentBlocksAsClassName prefixed = true
  /\ getClassName slug prefixed namedDiv 0 = ".pre-ab"
  /\ selectorAsSpecified slug prefixed "abcdef" = ".pre-abcdef"
  /\ getClassName slug prefixed namedDiv 0 <> selectorAsSpecified slug prefixed "abcdef".
Proof. repeat split; try reflexivity. discriminate. Qed.

(** The [div] after two comments. *)
Lemma comment_of_predecessors_witness :
  let pre := [commentNode " Card "; commentNode " Title "] in
  let node := elementNode "div" [mkAttr "class" (Some "p-4")] [] in
  let post := [elementNode "p" [mkAttr "class" (Some "m-1")] []] in
  (filterHtmlData cleanText twoCommentsTree 1 = Ok (twoCommentsMut, Some twoCommentsRes)
   /\ filter isParentCandidate twoCommentsTree = (pre ++ node :: post)%list)
  /\ exists node',
       nth_error (filter isParentCandidate twoCommentsMut) 2 = Some node'
       /\ comment_ node' = Some "Card, Title".
Proof.
  intros pre node post.
  assert (H1 : filterHtmlData cleanText twoCommentsTree 1
               = Ok (twoCommentsMut, Some twoCommentsRes)) by reflexivity.
  assert (H2 : filter isParentCandidate twoCommentsTree = (pre ++ node :: post)%list)
    by reflexivity.
  split; [split; assumption |].
  destruct (comment_of_predecessors cleanText twoCommentsTree pre post node 1 H1 H2)
    as (node' & Hn & Hc & _).
  exists node'. split; [exact Hn |].
  exact (proj1 (Hc [] eq_refl)).
Defined.

(** C3, as the specification words it, fails on a comment node: the
    second comment of the document is a parent candidate that comes right
    after the comment [Card], yet it leaves normalization without a
    derived comment, for it has no array of children. *)
Lemma comment_node_gets_no_comment :
  filterHtmlData cleanText twoCommentsTree 1 = Ok (twoCommentsMut, Some twoCommentsRes)
  /\ filter isParentCandidate twoCommentsTree
     = ([commentNode " Card "] ++ commentNode " Title "
        :: [elementNode "div" [mkAttr "class" (Some "p-4")] [];
            elementNode "p" [mkAttr "class" (Some "m-1")] []])%list
  /\ commentAsSpecified cleanText [commentNode " Card "] = "Card"
  /\ exists node',
       nth_error (filter isParentCandidate twoCommentsMut) 1 = Some node'
       /\ isParentCandidate node' = true
       /\ content node' = Some " Title "
       /\ comment_ node' = None
       /\ comment_ node'
          <> Some (commentAsSpecified cleanText [commentNode " Card "]).
Proof.
  split; [reflexivity |]. split; [reflexivity |]. split; [reflexivity |].
  eexists. split; [reflexivity |].
  split; [reflexivity |]. split; [reflexivity |]. split; [reflexivity | discriminate].
Qed.



(** [<div></div>] with the formatter off. *)
Lemma convertToSass_without_styling_witness :
  (emptyDiv <> ""
   /\ cleanText (Some emptyDiv) false = Some emptyDiv
   /\ forallb bareNode (parse emptyDiv) = true)
  /\ Fixture.convertToSass defaultOptions0 (Some emptyDiv) (Some rawOutput)
     = (spread defaultOptions0 rawOutput, Ok (Some "")).
Proof.
  assert (H1 : emptyDiv <> "") by discriminate.
  assert (H2 : cleanText (Some emptyDiv) false = Some emptyDiv) by reflexivity.
  assert (H3 : forallb bareNode (parse emptyDiv) = true) by reflexivity.
  split; [split; [| split]; assumption |].
  exact (proj1 (convertToSass_without_styling cleanText addMissingSuffix
                  fixFomatterApplyIssue parse slug beautifyCss
                  defaultOptions0 (Some rawOutput) H1 H2 H3)).
Defined.

(** C1, as the specification words it, fails on [<div></div>]: no element
    carries a [class] or a [style] attribute and there is no style block,
    yet the call returns the empty string, with the formatter off, and a
    string with the formatter on. *)
Lemma convertToSass_of_empty_div :
  cleanText (Some emptyDiv) false = Some emptyDiv
  /\ forallb bareNode (parse emptyDiv) = true
  /\ snd (Fixture.convertToSass defaultOptions0 (Some emptyDiv) (Some rawOutput))
     = Ok (Some "")
  /\ snd (Fixture.convertToSass defaultOptions0 (Some emptyDiv) (Some rawOutput))
     <> Ok None
  /\ snd (Fixture.convertToSass defaultOptions0 (Some emptyDiv) None) <> Ok None.
Proof. repeat split; try reflexivity; discriminate. Qed.

(** Two style elements and a button at the top level. *)
Lemma style_regions_at_top_level_witness :
  (twoStyles <> ""
   /\ cleanText (Some twoStyles) false = Some twoStyles
   /\ filterHtmlData cleanText (parse twoStyles) 1 = Ok (twoStylesMut, Some twoStylesRes))
  /\ Fixture.convertToSass defaultOptions0 (Some twoStyles) (Some rawOutput)
     = (spread defaultOptions0 rawOutput,
        Ok (Some ("// #region STYLE #1" ++ LF ++ LF ++ "a{}" ++ LF
                  ++ "// #endregion" ++ LF ++ LF
                  ++ "// #region STYLE #2" ++ LF ++ LF ++ "b{}" ++ LF
                  ++ "// #endregion" ++ LF ++ LF
                  ++ "/* button -> 1 */button{@apply btn;}"))).
Proof.
  assert (H1 : twoStyles <> "") by discriminate.
  assert (H2 : cleanText (Some twoStyles) false = Some twoStyles) by reflexivity.
  assert (H3 : filterHtmlData cleanText (parse twoStyles) 1
               = Ok (twoStylesMut, Some twoStylesRes)) by reflexivity.
  split; [split; [| split]; assumption |].
  exact (proj1 (proj2 (style_regions_at_top_level cleanText addMissingSuffix
                         fixFomatterApplyIssue parse slug beautifyCss
                         defaultOptions0 (Some rawOutput) H1 H2 H3))).
Defined.

(** C2, as the specification words it, fails twice: a style element alone
    gives [null], and a style element inside a [div] gives a text in
    which no region occurs. *)
Lemma style_without_region :
  snd (Fixture.convertToSass defaultOptions0 (Some styleOnly) (Some rawOutput)) = Ok None
  /\ snd (Fixture.convertToSass defaultOptions0 (Some styleInDiv) (Some rawOutput))
     = Ok (Some "/* div -> 1 */.class-div-1{@apply a;}")
  /\ occursIn "#region" "/* div -> 1 */.class-div-1{@apply a;}" = false.
Proof. repeat split; reflexivity. Qed.


(** The empty text, and a blank, which passes the guard and has the
    formatter turned off. *)
Lemma convertToSass_empty_or_blank_witness :
  ((Some "" = None \/ Some "" = Some "")
   /\ Fixture.convertToSass defaultOptions0 (Some "") (Some rawOutput)
      = (defaultOptions0, Ok None))
  /\ (" " <> ""
      /\ formatOutput defaultOptions0 = true
      /\ formatOutput (fst (Fixture.convertToSass defaultOptions0 (Some " ") (Some rawOutput)))
         = false).
Proof.
  assert (H1 : Some "" = @None string \/ Some "" = Some "") by (right; reflexivity).
  assert (H2 : " " <> "") by discriminate.
  split; [split; [exact H1 |] | split; [exact H2 | split; [reflexivity |]]].
  - exact (proj1 (convertToSass_empty_or_blank cleanText addMissingSuffix
                    fixFomatterApplyIssue parse slug beautifyCss
                    defaultOptions0 (Some "") (Some rawOutput)) H1).
  - exact (proj1 (proj1 (proj2 (proj2 (convertToSass_empty_or_blank cleanText addMissingSuffix
                                  fixFomatterApplyIssue parse slug beautifyCss
                                  defaultOptions0 (Some " ") (Some rawOutput))
                           " " eq_refl H2)) rawOutput eq_refl)).
Defined.

(** C9, as the specification words it, fails on a blank: the call merges
    the options into [defaultOptions], which a call that did no work
    would have left alone. *)
Lemma convertToSass_of_blank :
  blankInput (Some " ") = true
  /\ fst (Fixture.convertToSass defaultOptions0 (Some " ") (Some rawOutput))
     = spread defaultOptions0 rawOutput
  /\ formatOutput (fst (Fixture.convertToSass defaultOptions0 (Some " ") (Some rawOutput)))
     = false
  /\ formatOutput defaultOptions0 = true
  /\ Fixture.convertToSass defaultOptions0 (Some " ") (Some rawOutput)
     <> (defaultOptions0, Ok None).
Proof. repeat split; try reflexivity. discriminate. Qed.

(** A style element alone. *)
Lemma styles_without_parents_give_null_witness :
  ((exists s, In s styleOnlyTree /\ tagIs s "style" = true)
   /\ (forall x, In x styleOnlyTree -> tagIs x "style" = true ->
                 exists cs, children x = JsVal cs)
   /\ (forall x, In x styleOnlyTree -> isParentCandidate x = true ->
                 attributes x = None /\ children x = JsNull))
  /\ (exists mut, filterHtmlData cleanText styleOnlyTree 1 = Ok (mut, None))
  /\ Fixture.convertToSass defaultOptions0 (Some styleOnly) None
     = (defaultOptions0, Ok None).
Proof.
  assert (H1 : exists s, In s styleOnlyTree /\ tagIs s "style" = true).
  { eexists. split; [left; reflexivity | reflexivity]. }
  assert (H2 : forall x, In x styleOnlyTree -> tagIs x "style" = true ->
                         exists cs, children x = JsVal cs).
  { intros x [<- | []] _. eexists. reflexivity. }
  assert (H3 : forall x, In x styleOnlyTree -> isParentCandidate x = true ->
                         attributes x = None /\ children x = JsNull).
  { intros x [<- | []] H. discriminate H. }
  split; [split; [exact H1 | split; [exact H2 | exact H3]] |].
  pose proof (styles_without_parents_give_null cleanText addMissingSuffix
                fixFomatterApplyIssue parse slug beautifyCss
                styleOnlyTree 1 H1 H2 H3) as (_ & Hn & Hc).
  split; [exact Hn |].
  refine (Hc defaultOptions0 styleOnly styleOnly None _ eq_refl eq_refl).
  discriminate.
Defined.

End Examples.

(** * Further properties of the code *)

(** ** [getAttributes] *)

Section AttributeProperties.

Variable cleanText : option string -> bool -> option string.

Lemma findValue_cleaned (keys : list string) (k : string)
    (attrs : list IHtmlNodeAttribute) :
  includes keys k = true ->
  findValue k (map (cleanAttribute cleanText)
                   (filter (fun a => includes keys (key a)) attrs))
  = firstCleaned cleanText k attrs.
Proof.
  intros Hk. unfold findValue, firstCleaned.
  induction attrs as [| a attrs IH]; [reflexivity |]. simpl.
  destruct (String.eqb_spec (key a) k) as [E | E].
  - rewrite E, Hk. simpl. rewrite E, String.eqb_refl. reflexivity.
  - destruct (includes keys (key a)); simpl; [| exact IH].
    destruct (String.eqb_spec (key a) k); [contradiction | exact IH].
Qed.

Lemma findValue_not_listed (keys : list string) (k : string)
    (attrs : list IHtmlNodeAttribute) :
  includes keys k = false ->
  findValue k (map (cleanAttribute cleanText)
                   (filter (fun a => includes keys (key a)) attrs))
  = None.
Proof.
  intros Hk. unfold findValue.
  induction attrs as [| a attrs IH]; [reflexivity |]. simpl.
  destruct (includes keys (key a)) eqn:Ea; simpl; [| exact IH].
  destruct (String.eqb_spec (key a) k) as [E | E]; [| exact IH].
  rewrite E in Ea. congruence.
Qed.

(** X1: of an attribute list, [getAttributes] returns for [style] and for
    [class] the cleaned value of the first attribute with that key, when
    the key is among [keys], and [null] otherwise: later attributes with
    the same key and attributes with other keys play no part. *)
Theorem getAttributes_first_match (attrs : list IHtmlNodeAttribute) (keys : list string) :
  snd (getAttributes cleanText (Some attrs) keys)
  = Some {| style := if includes keys "style"
                     then firstCleaned cleanText "style" attrs else None;
            class := if includes keys "class"
                     then firstCleaned cleanText "class" attrs else None |}.
Proof.
  unfold getAttributes. cbn [snd]. f_equal.
  destruct (includes keys "style") eqn:Es, (includes keys "class") eqn:Ec;
    rewrite ?(findValue_cleaned _ _ attrs Es), ?(findValue_cleaned _ _ attrs Ec),
            ?(findValue_not_listed _ _ attrs Es), ?(findValue_not_listed _ _ attrs Ec);
    reflexivity.
Qed.

End AttributeProperties.

(** ** [getStyleContents] *)

Lemma getStyleContents_ok_arrays (l l' sl : list IHtmlNode) :
  getStyleContents l = Ok (l', sl) ->
  forall x, In x l -> exists cs, children x = JsVal cs.
Proof.
  revert l' sl. induction l as [| x l IH]; intros l' sl H y Hy; [destruct Hy |].
  rewrite getStyleContents_cons in H.
  destruct (getStyleContent x) as [[x' sn] |] eqn:Ex; simpl in H; [| discriminate].
  destruct (getStyleContents l) as [[l0 sl0] |]; simpl in H; [| discriminate].
  destruct Hy as [<- | Hy].
  - destruct (getStyleContent_inv _ Ex) as (cs & Ec & _). exists cs. exact Ec.
  - apply (IH l0 sl0 eq_refl y Hy).
Qed.

Lemma getStyleContents_retyped (l l' sl : list IHtmlNode) :
  getStyleContents l = Ok (l', sl) ->
  Forall (fun x' => forall cs, children x' = JsVal cs ->
                    Forall (fun c => type c = Some text) cs) l'.
Proof.
  revert l' sl. induction l as [| x l IH]; intros l' sl H.
  - injection H as <- <-. constructor.
  - rewrite getStyleContents_cons in H.
    destruct (getStyleContent x) as [[x' sn] |] eqn:Ex; simpl in H; [| discriminate].
    destruct (getStyleContents l) as [[l0 sl0] |]; simpl in H; [| discriminate].
    injection H as <- <-. constructor; [| apply (IH l0 sl0 eq_refl)].
    destruct (getStyleContent_inv _ Ex) as (cs & _ & -> & _). simpl.
    intros cs' E. injection E as <-. apply Forall_forall. intros c Hc.
    apply in_map_iff in Hc. destruct Hc as (c0 & <- & _). reflexivity.
Qed.

(** X2: [getStyleContents] raises exactly when one of the elements has
    no array of children; otherwise it returns one synthetic node for
    each element, in the order of the elements, carrying the contents of
    all the children of the element, and leaves every child of every
    element with the type [text]. *)
Theorem getStyleContents_outcome (l : list IHtmlNode) :
  (getStyleContents l = TypeError
   <-> exists x, In x l /\ forall cs, children x <> JsVal cs)
  /\ (forall l' sl, getStyleContents l = Ok (l', sl) ->
        List.length sl = List.length l
        /\ sl = map (fun x => styleNode (styleText x)) l
        /\ Forall (fun x' => forall cs, children x' = JsVal cs ->
                             Forall (fun c => type c = Some text) cs) l').
Proof.
  split.
  - split.
    + intros H. induction l as [| x l IH]; [discriminate |].
      rewrite getStyleContents_cons in H.
      destruct (children x) as [| | cs] eqn:Ec.
      * exists x. split; [left; reflexivity |]. intros cs. rewrite Ec. discriminate.
      * exists x. split; [left; reflexivity |]. intros cs. rewrite Ec. discriminate.
      * rewrite (getStyleContent_array _ Ec) in H. simpl in H.
        destruct (getStyleContents l) as [[l0 sl0] |]; [discriminate |].
        destruct (IH eq_refl) as (y & Hy & Hc). exists y. split; [right; exact Hy | exact Hc].
    + intros (x & Hx & Hc).
      destruct (getStyleContents l) as [[l' sl] |] eqn:E; [| reflexivity].
      destruct (getStyleContents_ok_arrays _ E x Hx) as [cs Ecs].
      destruct (Hc cs Ecs).
  - intros l' sl H. pose proof (getStyleContents_texts _ H) as Hsl.
    rewrite map_map in Hsl. split; [| split].
    + rewrite Hsl. apply length_map.
    + exact Hsl.
    + apply (getStyleContents_retyped _ H).
Qed.

(** ** [filterHtmlData] *)

Lemma mapM_Forall2 {A B} (f : A -> result B) (xs : list A) (ys : list B) :
  mapM f xs = Ok ys -> Forall2 (fun x y => f x = Ok y) xs ys.
Proof.
  revert ys. induction xs as [| x xs IH]; simpl; intros ys H.
  - injection H as <-. constructor.
  - destruct (f x) as [y |] eqn:E; simpl in H; [| discriminate].
    destruct (mapM f xs) as [ys' |]; simpl in H; [| discriminate].
    injection H as <-. constructor; [exact E | apply IH; reflexivity].
Qed.

Lemma Forall2_combine_seq {A B} (R : nat * A -> B -> Prop) (xs : list A) (ys : list B)
    (k : nat) :
  Forall2 R (combine (seq k (List.length xs)) xs) ys ->
  Forall2 (fun x y => exists i, R (i, x) y) xs ys.
Proof.
  revert ys k. induction xs as [| x xs IH]; simpl; intros ys k H.
  - inversion H. constructor.
  - inversion H as [| ? y ? ys' Hxy Hrest]; subst. constructor.
    + exists k. exact Hxy.
    + apply (IH ys' (S k) Hrest).
Qed.

Section MoreNormalizerProperties.

Variable cleanText : option string -> bool -> option string.

(** The loop relates each parent candidate to the node it has become. *)
Lemma visitParents_Forall2 (parentNode visited : list IHtmlNode) (d : nat) :
  visitParents cleanText parentNode d = Ok visited ->
  Forall2 (fun x y => exists i,
             visitNode cleanText parentNode d i x (filterChildren cleanText (S d) x) = Ok y)
          parentNode visited.
Proof.
  intros H. unfold visitParents in H. apply mapM_Forall2 in H.
  apply Forall2_combine_seq in H. exact H.
Qed.

Lemma getStyleContents_Forall2 (l l' sl : list IHtmlNode) :
  getStyleContents l = Ok (l', sl) ->
  Forall2 (fun x x' => exists cs,
             children x = JsVal cs
             /\ x' = set_children (JsVal (map (set_type (Some text)) cs)) x) l l'.
Proof.
  revert l' sl. induction l as [| x l IH]; intros l' sl H.
  - injection H as <- <-. constructor.
  - rewrite getStyleContents_cons in H.
    destruct (getStyleContent x) as [[x' sn] |] eqn:Ex; simpl in H; [| discriminate].
    destruct (getStyleContents l) as [[l0 sl0] |]; simpl in H; [| discriminate].
    injection H as <- <-. constructor; [| apply (IH l0 sl0 eq_refl)].
    destruct (getStyleContent_inv _ Ex) as (cs & Ec & Ex' & _). exists cs. auto.
Qed.

(** A property of nodes that the loop and the extraction of the styles
    establish holds of the whole array after the call. *)
Lemma writeBack_Forall2 (R : IHtmlNode -> IHtmlNode -> Prop)
    (htmlJson styles visited : list IHtmlNode) :
  (forall x, isParentCandidate x = false -> tagIs x "style" = false -> R x x) ->
  Forall2 R (filter isParentCandidate htmlJson) visited ->
  Forall2 R (filter (fun x => tagIs x "style") htmlJson) styles ->
  Forall2 R htmlJson (writeBack htmlJson styles visited).
Proof.
  intros Hrefl. revert styles visited.
  induction htmlJson as [| x rest IH]; intros styles visited Hv Hs; simpl in *.
  - constructor.
  - destruct (isParentCandidate x) eqn:Ec.
    + assert (Et : tagIs x "style" = false).
      { unfold isParentCandidate in Ec. apply andb_true_iff in Ec.
        destruct Ec as [_ Ec]. apply negb_true_iff in Ec. exact Ec. }
      rewrite Et in Hs. inversion Hv as [| ? p ? ps Hp Hps]; subst.
      constructor; [exact Hp | apply IH; assumption].
    + destruct (tagIs x "style") eqn:Et.
      * inversion Hs as [| ? s0 ? ss Hs0 Hss]; subst.
        constructor; [exact Hs0 | apply IH; assumption].
      * constructor; [apply Hrefl; assumption | apply IH; assumption].
Qed.

Lemma Forall2_In_l {A B} (R : A -> B -> Prop) (xs : list A) (ys : list B) :
  Forall2 R xs ys -> Forall2 (fun x y => In x xs /\ R x y) xs ys.
Proof.
  induction 1 as [| x y xs ys Hxy _ IH]; constructor.
  - split; [left; reflexivity | exact Hxy].
  - eapply Forall2_impl; [| exact IH]. intros a b [Ha Hab]. split; [right |]; assumption.
Qed.

Lemma Forall2_right {A B} (q : B -> bool) (xs : list A) (ys : list B) :
  Forall2 (fun _ y => q y = true) xs ys -> forallb q ys = true.
Proof.
  induction 1 as [| x y xs ys Hy _ IH]; [reflexivity |]. simpl. rewrite Hy, IH. reflexivity.
Qed.

(** The children of a visited node are the array its children were in,
    after the recursive call, or the elements of the list that call
    returned. *)
Lemma visitNode_children (parentNode : list IHtmlNode) (d i : nat)
    (node node' : IHtmlNode) (sub : Filtered) (cs : list IHtmlNode) :
  children node = JsVal cs ->
  visitNode cleanText parentNode d i node sub = Ok node' ->
  exists kids r,
    sub = Ok (kids, r)
    /\ (children node' = JsVal kids
        \/ exists l, r = Some l
             /\ children node' = JsVal (filter (fun x => typeIs (type x) element) l)).
Proof.
  unfold visitNode. intros Hc H. rewrite Hc in H.
  destruct sub as [[kids r] |]; simpl in H; [| discriminate].
  exists kids, r. split; [reflexivity |].
  destruct r as [[| c l] |]; simpl in H;
    destruct (getAttributes _ _ _) in H; injection H as <-; simpl; auto.
  right. exists (c :: l). auto.
Qed.

Lemma visitNode_children_kept (parentNode : list IHtmlNode) (d i : nat)
    (node node' : IHtmlNode) (sub : Filtered) :
  (forall cs, children node <> JsVal cs) ->
  visitNode cleanText parentNode d i node sub = Ok node' ->
  children node' = children node.
Proof.
  unfold visitNode. intros Hc H.
  destruct (children node) as [| | cs] eqn:E.
  - simpl in H. destruct (getAttributes _ _ _) in H. injection H as <-. simpl. auto.
  - simpl in H. destruct (getAttributes _ _ _) in H. injection H as <-. simpl. auto.
  - destruct (Hc cs eq_refl).
Qed.

(** The members of the list returned are synthetic style nodes or
    members of the array after the call. *)
Lemma filterHtmlData_members (htmlJson mut r : list IHtmlNode) (d : nat) :
  filterHtmlData cleanText htmlJson d = Ok (mut, Some r) ->
  forall x, In x r -> (exists c, x = styleNode c) \/ In x mut.
Proof.
  intros H x Hx.
  destruct (filterHtmlData_inv _ _ _ H) as (styles' & styleList & visited & Hs & _ & _ & Hm & Hr).
  symmetry in Hr. apply filter_nonempty_eq in Hr. subst r.
  apply in_app_or in Hx. destruct Hx as [Hx | Hx].
  - left. pose proof (getStyleContents_nodes _ Hs) as Hn.
    rewrite Forall_forall in Hn. apply Hn. exact Hx.
  - right. apply filter_In in Hx. destruct Hx as [Hx _]. rewrite <- Hm in Hx.
    apply filter_In in Hx. apply Hx.
Qed.

(** X3: normalization leaves the array it is given with the same length
    and, position by position, with the same [type], [tagName] and
    [content]. *)
Theorem filterHtmlData_frame (htmlJson mut : list IHtmlNode) (d : nat)
    (res : option (list IHtmlNode)) :
  filterHtmlData cleanText htmlJson d = Ok (mut, res) ->
  List.length mut = List.length htmlJson
  /\ map type mut = map type htmlJson
  /\ map tagName mut = map tagName htmlJson
  /\ map content mut = map content htmlJson.
Proof.
  intros H.
  destruct (filterHtmlData_inv _ _ _ H) as (styles' & styleList & visited & Hs & Hv & -> & _).
  assert (HR : Forall2 (fun x y => type y = type x /\ tagName y = tagName x
                                   /\ content y = content x)
                       htmlJson (writeBack htmlJson styles' visited)).
  { apply writeBack_Forall2.
    - auto.
    - eapply Forall2_impl; [| apply (visitParents_Forall2 _ _ Hv)].
      intros x y [i Hi]. destruct (visitNode_frame _ _ _ _ _ _ Hi) as (? & ? & ? & _). auto.
    - eapply Forall2_impl; [| apply (getStyleContents_Forall2 _ Hs)].
      intros x y (cs & _ & ->). auto. }
  generalize dependent (writeBack htmlJson styles' visited).
  intros m _ HR. clear Hs Hv.
  induction HR as [| x y l l' Hxy _ IH]; [auto |].
  destruct Hxy as (Ht & Hg & Hc). destruct IH as (Il & It & Ig & Ic). simpl.
  rewrite Il, It, Ig, Ic, Ht, Hg, Hc. auto.
Qed.

(** *** A rule for the invariants of normalization

    [I] is assumed of the nodes given and [Q d] is obtained of the nodes
    left at depth [d], provided that [Q] holds of the nodes normalization
    does not visit, of the style elements once their children are
    retyped, and of a visited node whose children have it one level
    down. *)

Section Invariant.

Variable I : IHtmlNode -> bool.
Variable Q : nat -> IHtmlNode -> bool.

Hypothesis I_children :
  forall n cs, I n = true -> children n = JsVal cs -> forallb I cs = true.
Hypothesis Q_unvisited :
  forall d x, I x = true -> isParentCandidate x = false -> tagIs x "style" = false ->
              Q d x = true.
Hypothesis Q_style :
  forall d x cs, I x = true -> tagIs x "style" = true -> children x = JsVal cs ->
                 Q d (set_children (JsVal (map (set_type (Some text)) cs)) x) = true.
Hypothesis Q_visited :
  forall d x y parentNode i,
    I x = true -> isParentCandidate x = true ->
    visitNode cleanText parentNode d i x (filterChildren cleanText (S d) x) = Ok y ->
    (forall cs cs', children x = JsVal cs -> children y = JsVal cs' ->
                    forallb (Q (S d)) cs' = true) ->
    Q d y = true.

Lemma Forall2_premise (q : IHtmlNode -> bool) (xs ys : list IHtmlNode) :
  Forall2 (fun x y => I x = true -> q y = true) xs ys ->
  forallb I xs = true -> forallb q ys = true.
Proof.
  induction 1 as [| x y xs ys Hxy _ IH]; [reflexivity |]. simpl. intros HI.
  apply andb_true_iff in HI. destruct HI as [Hx Hxs].
  rewrite (Hxy Hx), (IH Hxs). reflexivity.
Qed.

Lemma invariant_level (l : list IHtmlNode) (d : nat) (mut : list IHtmlNode)
    (res : option (list IHtmlNode)) :
  Forall (fun n => I n = true -> forall d mut res,
            filterChildren cleanText d n = Ok (mut, res) -> forallb (Q d) mut = true) l ->
  forallb I l = true ->
  filterHtmlData cleanText l d = Ok (mut, res) ->
  forallb (Q d) mut = true.
Proof.
  intros HP HI H.
  destruct (filterHtmlData_inv _ _ _ H) as (styles' & styleList & visited & Hs & Hv & -> & _).
  rewrite Forall_forall in HP.
  apply (Forall2_premise (Q d) (xs := l)); [| exact HI].
  apply writeBack_Forall2.
  - intros x Hc Ht Ix. apply Q_unvisited; assumption.
  - eapply Forall2_impl; [| apply Forall2_In_l, (visitParents_Forall2 _ _ Hv)].
    intros x y (Hin & i & Hi) Ix. simpl in Hi.
    apply filter_In in Hin. destruct Hin as [Hin Hc].
    apply (@Q_visited _ _ _ _ _ Ix Hc Hi). intros cs cs' Ecs Ecs'.
    destruct (@visitNode_children _ _ _ _ _ _ _ Ecs Hi) as (kids & r & Esub & Hkids).
    pose proof (HP x Hin Ix (S d) kids r Esub) as Hq.
    destruct Hkids as [E | (l0 & -> & E)]; rewrite E in Ecs'; injection Ecs' as <-;
      [exact Hq |].
    apply forallb_forall. intros z Hz. apply filter_In in Hz. destruct Hz as [Hz Hel].
    erewrite filterChildren_eq in Esub by exact Ecs.
    destruct (@filterHtmlData_members _ _ _ _ Esub z Hz) as [[c ->] | Hm].
    + discriminate Hel.
    + rewrite forallb_forall in Hq. apply Hq. exact Hm.
  - eapply Forall2_impl; [| apply Forall2_In_l, (getStyleContents_Forall2 _ Hs)].
    intros x y (Hin & cs & Ecs & ->) Ix. apply filter_In in Hin.
    apply (@Q_style d x cs); [exact Ix | apply Hin | exact Ecs].
Qed.

Lemma invariant_tree :
  forall n, I n = true -> forall d mut res,
    filterChildren cleanText d n = Ok (mut, res) -> forallb (Q d) mut = true.
Proof.
  apply (@IHtmlNode_nested_ind
           (fun n => I n = true -> forall d mut res,
              filterChildren cleanText d n = Ok (mut, res) -> forallb (Q d) mut = true)).
  intros n IH Hn d mut res E.
  destruct (children n) as [| | cs] eqn:Ec.
  - destruct n; simpl in *; subst; simpl in E. injection E as <- <-. reflexivity.
  - destruct n; simpl in *; subst; simpl in E. injection E as <- <-. reflexivity.
  - erewrite filterChildren_eq in E by exact Ec.
    apply (@invariant_level cs d mut res); [apply IH; reflexivity | | exact E].
    apply (@I_children _ _ Hn Ec).
Qed.

(** The rule: [Q d] holds of the array after a call at depth [d], and so
    of the members of the list returned that are no synthetic style
    nodes. *)
Lemma invariant_holds (l : list IHtmlNode) (d : nat) (mut : list IHtmlNode)
    (res : option (list IHtmlNode)) :
  forallb I l = true ->
  filterHtmlData cleanText l d = Ok (mut, res) ->
  forallb (Q d) mut = true
  /\ (forall r x, res = Some r -> In x r -> (exists c, x = styleNode c) \/ Q d x = true).
Proof.
  intros HI H.
  assert (Hmut : forallb (Q d) mut = true).
  { apply (@invariant_level l d mut res); [| exact HI | exact H].
    apply Forall_forall. intros n _. apply invariant_tree. }
  split; [exact Hmut |]. intros r x -> Hx.
  destruct (@filterHtmlData_members _ _ _ _ H x Hx) as [Hs | Hm]; [left; exact Hs |].
  right. rewrite forallb_forall in Hmut. apply Hmut. exact Hm.
Qed.

End Invariant.

Lemma levelled_unfold (d : nat) (n : IHtmlNode) :
  levelled d n =
  match children n with
  | JsVal cs =>
      negb (isParentCandidate n)
      || (match order n with Some k => (k =? d)%nat | None => false end
          && forallb (levelled (S d)) cs)
  | _ => true
  end.
Proof. destruct n. reflexivity. Qed.

Lemma regionFree_unfold (n : IHtmlNode) :
  regionFree n =
  negb (isRegion n)
  && match children n with JsVal cs => forallb regionFree cs | _ => true end.
Proof. destruct n. reflexivity. Qed.

Lemma forallb_true {A} (xs : list A) : forallb (fun _ => true) xs = true.
Proof. induction xs; [reflexivity | exact IHxs]. Qed.

Lemma levelled_inv (d : nat) (n : IHtmlNode) (cs : list IHtmlNode) :
  levelled d n = true -> isParentCandidate n = true -> children n = JsVal cs ->
  order n = Some d /\ forallb (levelled (S d)) cs = true.
Proof.
  rewrite levelled_unfold. intros H Hc E. rewrite E, Hc in H. simpl in H.
  apply andb_true_iff in H. destruct H as [Ho Hk]. split; [| exact Hk].
  destruct (order n) as [k |]; [| discriminate].
  apply Nat.eqb_eq in Ho. subst. reflexivity.
Qed.

(** X4: every parent candidate with a list of children that is in the
    list returned by a call at depth [d] has [d] as its [order], the
    parent candidates with a list of children among its children have
    [d + 1], and so on down the tree: [order] is the depth at which
    normalization met the node. *)
Theorem order_is_depth (htmlJson mut res : list IHtmlNode) (d : nat) :
  filterHtmlData cleanText htmlJson d = Ok (mut, Some res) ->
  forallb (levelled d) res = true
  /\ (forall x cs, In x res -> isParentCandidate x = true -> children x = JsVal cs ->
        order x = Some d
        /\ (forall y cs', In y cs -> isParentCandidate y = true ->
                          children y = JsVal cs' -> order y = Some (S d))).
Proof.
  intros H.
  destruct (@invariant_holds (fun _ => true) levelled) with (l := htmlJson) (d := d)
    (mut := mut) (res := Some res) as [_ Hres].
  - intros n cs _ _. apply forallb_true.
  - intros d0 x _ Hc _. rewrite levelled_unfold, Hc. destruct (children x); reflexivity.
  - intros d0 x cs _ Ht _. rewrite levelled_unfold. simpl.
    replace (isParentCandidate (set_children (JsVal (map (set_type (Some text)) cs)) x))
      with false; [reflexivity |].
    symmetry. apply style_not_candidate. exact Ht.
  - intros d0 x y parentNode i _ Hc Hi Hkids. rewrite levelled_unfold.
    destruct (children y) as [| | cs'] eqn:Ey; try reflexivity.
    destruct (children x) as [| | cs] eqn:Ex.
    + assert (Hnot : forall cs, children x <> JsVal cs)
        by (intros cs; rewrite Ex; discriminate).
      rewrite (@visitNode_children_kept _ _ _ _ _ _ Hnot Hi) in Ey. congruence.
    + assert (Hnot : forall cs, children x <> JsVal cs)
        by (intros cs; rewrite Ex; discriminate).
      rewrite (@visitNode_children_kept _ _ _ _ _ _ Hnot Hi) in Ey. congruence.
    + destruct (@visitNode_comment _ _ _ _ _ _ _ _ Ex Hi) as [_ Ho].
      rewrite Ho, Nat.eqb_refl, (Hkids cs cs' eq_refl eq_refl). apply orb_true_r.
  - apply forallb_true.
  - exact H.
  - assert (Hall : forallb (levelled d) res = true).
    { apply forallb_forall. intros x Hx.
      destruct (Hres res x eq_refl Hx) as [[c ->] | Hq]; [reflexivity | exact Hq]. }
    split; [exact Hall |]. intros x cs Hx Hc E.
    rewrite forallb_forall in Hall.
    destruct (levelled_inv _ _ (Hall x Hx) Hc E) as [Ho Hk]. split; [exact Ho |].
    intros y cs' Hy Hcy Ey. rewrite forallb_forall in Hk.
    apply (levelled_inv _ _ (Hk y Hy) Hcy Ey).
Qed.

Lemma regionFree_set_type (t : option NodeType) (c : IHtmlNode) :
  regionFree (set_type t c) = regionFree c.
Proof. rewrite !regionFree_unfold. reflexivity. Qed.

Lemma candidate_no_region (x : IHtmlNode) :
  isParentCandidate x = true -> isRegion x = false.
Proof.
  unfold isParentCandidate, isRegion. intros H. apply andb_true_iff in H.
  destruct H as [_ H]. apply negb_true_iff in H. rewrite H. reflexivity.
Qed.

(** X5: when no node of the tree given is one that [getSassTree] renders
    as a region (as in a tree from the parser, where no node has
    [filterAttributes] yet), the list returned is made of the synthetic
    style nodes of the level followed by nodes in which nothing is
    rendered as a region, at any depth: a style element below the level
    of the call leaves no region. *)
Theorem regions_at_call_level_only (htmlJson mut res : list IHtmlNode) (d : nat) :
  forallb regionFree htmlJson = true ->
  filterHtmlData cleanText htmlJson d = Ok (mut, Some res) ->
  exists styleList elementList,
    res = (styleList ++ elementList)%list
    /\ Forall (fun s => exists c, s = styleNode c) styleList
    /\ forallb regionFree elementList = true.
Proof.
  intros HI H.
  destruct (@invariant_holds regionFree (fun _ => regionFree)) with (l := htmlJson) (d := d)
    (mut := mut) (res := Some res) as [Hmut _].
  - intros n cs Hn E. rewrite regionFree_unfold in Hn.
    apply andb_true_iff in Hn. destruct Hn as [_ Hk]. rewrite E in Hk. exact Hk.
  - intros _ x Hx _ _. exact Hx.
  - intros _ x cs Hx _ E. rewrite regionFree_unfold in Hx |- *.
    apply andb_true_iff in Hx. destruct Hx as [Hr Hk]. rewrite E in Hk.
    unfold isRegion, tagIs in *. simpl. rewrite Hr. simpl.
    rewrite forallb_forall in *. intros z Hz.
    apply in_map_iff in Hz. destruct Hz as (c & <- & Hc).
    rewrite regionFree_set_type. apply Hk. exact Hc.
  - intros d0 x y parentNode i Hx Hc Hi Hkids. rewrite regionFree_unfold.
    rewrite <- (@visitNode_candidate _ _ _ _ _ _ _ Hi) in Hc.
    rewrite (candidate_no_region _ Hc). simpl.
    destruct (children y) as [| | cs'] eqn:Ey; try reflexivity.
    destruct (children x) as [| | cs] eqn:Ex.
    + assert (Hnot : forall cs, children x <> JsVal cs)
        by (intros cs; rewrite Ex; discriminate).
      rewrite (@visitNode_children_kept _ _ _ _ _ _ Hnot Hi) in Ey. congruence.
    + assert (Hnot : forall cs, children x <> JsVal cs)
        by (intros cs; rewrite Ex; discriminate).
      rewrite (@visitNode_children_kept _ _ _ _ _ _ Hnot Hi) in Ey. congruence.
    + apply (Hkids cs cs' eq_refl eq_refl).
  - exact HI.
  - exact H.
  - destruct (filterHtmlData_inv _ _ _ H)
      as (styles' & styleList & visited & Hs & _ & _ & Hm & Hr).
    symmetry in Hr. apply filter_nonempty_eq in Hr.
    exists styleList, (filter retained visited). split; [exact Hr |]. split.
    + apply (getStyleContents_nodes _ Hs).
    + rewrite <- Hm. apply forallb_filter, forallb_filter. exact Hmut.
Qed.

Lemma wellShaped_unfold (n : IHtmlNode) :
  wellShaped n =
  (negb (tagIs n "style") || match children n with JsVal _ => true | _ => false end)
  && match children n with JsVal cs => forallb wellShaped cs | _ => true end.
Proof. destruct n. reflexivity. Qed.

Lemma visitNode_ok (parentNode : list IHtmlNode) (d i : nat) (node : IHtmlNode)
    (sub : Filtered) :
  (forall cs, children node = JsVal cs -> exists r, sub = Ok r) ->
  exists node', visitNode cleanText parentNode d i node sub = Ok node'.
Proof.
  intros H. unfold visitNode.
  destruct (children node) as [| | cs].
  - simpl. destruct (getAttributes _ _ _). eexists. reflexivity.
  - simpl. destruct (getAttributes _ _ _). eexists. reflexivity.
  - destruct (H cs eq_refl) as [[kids r] ->]. simpl.
    destruct r as [[| c l] |]; simpl; destruct (getAttributes _ _ _); eexists; reflexivity.
Qed.

Lemma wellShaped_level (l : list IHtmlNode) (d : nat) :
  Forall (fun n => wellShaped n = true ->
            forall d, exists r, filterChildren cleanText d n = Ok r) l ->
  forallb wellShaped l = true ->
  exists r, filterHtmlData cleanText l d = Ok r.
Proof.
  intros HP Hw. rewrite Forall_forall in HP. rewrite forallb_forall in Hw.
  rewrite filterHtmlData_eq. cbv zeta. rewrite styles_or_nothing.
  destruct (getStyleContents_arrays (filter (fun x => tagIs x "style") l))
    as (styles' & styleList & Es).
  { intros x Hx. apply filter_In in Hx. destruct Hx as [Hx Ht].
    pose proof (Hw x Hx) as Hwx. rewrite wellShaped_unfold, Ht in Hwx. simpl in Hwx.
    destruct (children x) as [| | cs]; try discriminate. exists cs. reflexivity. }
  rewrite Es. simpl.
  destruct (filter isParentCandidate l) as [| p ps] eqn:Ep; [eexists; reflexivity |].
  rewrite <- Ep.
  destruct (mapM_total
              (fun x => visitNode cleanText (filter isParentCandidate l) d (fst x) (snd x)
                          (filterChildren cleanText (S d) (snd x)))
              (indexed (filter isParentCandidate l))) as [visited Hv].
  { intros [i x] Hx. apply in_indexed in Hx. simpl in *.
    apply nth_error_In, filter_In in Hx. destruct Hx as [Hx _].
    apply visitNode_ok. intros cs _. apply (HP x Hx (Hw x Hx)). }
  unfold visitParents. rewrite Hv. simpl. eexists. reflexivity.
Qed.

Lemma wellShaped_tree :
  forall n, wellShaped n = true -> forall d, exists r, filterChildren cleanText d n = Ok r.
Proof.
  apply (@IHtmlNode_nested_ind
           (fun n => wellShaped n = true ->
                     forall d, exists r, filterChildren cleanText d n = Ok r)).
  intros n IH Hw d.
  destruct (children n) as [| | cs] eqn:Ec.
  - destruct n; simpl in *; subst. eexists. reflexivity.
  - destruct n; simpl in *; subst. eexists. reflexivity.
  - erewrite filterChildren_eq by exact Ec.
    apply wellShaped_level; [apply IH; reflexivity |].
    rewrite wellShaped_unfold, Ec in Hw. apply andb_true_iff in Hw. apply Hw.
Qed.

(** Whether the list returned is [null] is settled by the parent
    candidates given. *)
Lemma null_iff_nothing_retainable (htmlJson mut : list IHtmlNode) (d : nat)
    (res : option (list IHtmlNode)) :
  filterHtmlData cleanText htmlJson d = Ok (mut, res) ->
  (res = None <-> existsb retainable htmlJson = false).
Proof.
  intros H.
  destruct (filterHtmlData_inv _ _ _ H) as (styles' & styleList & visited & _ & Hv & _ & _ & ->).
  assert (Hex : existsb retained visited = existsb retainable htmlJson).
  { rewrite <- existsb_retainable.
    rewrite <- (existsb_combine_seq _ (filter isParentCandidate htmlJson) 0).
    unfold visitParents in Hv.
    apply (mapM_existsb _ _ _ _ Hv). intros x y _ Hy.
    apply (@visitNode_retained cleanText _ _ _ _ _ _ Hy). }
  rewrite <- Hex, <- filter_nil_existsb.
  destruct (filter retained visited); split; intros E; (reflexivity || discriminate).
Qed.

(** X6: on a tree in which every node with the tag [style] has an array
    of children, as every tree from the parser, normalization does not
    raise, at any depth. *)
Theorem filterHtmlData_never_raises (htmlJson : list IHtmlNode) (d : nat) :
  forallb wellShaped htmlJson = true ->
  exists mut res, filterHtmlData cleanText htmlJson d = Ok (mut, res).
Proof.
  intros Hw. destruct (@wellShaped_level htmlJson d) as [[mut res] E].
  - apply Forall_forall. intros n _. apply wellShaped_tree.
  - exact Hw.
  - exists mut, res. exact E.
Qed.

(** X7: normalization returns [null] exactly when no parent candidate of
    the array has an attribute list or children other than [null]; a
    list it returns is never empty: it holds a parent candidate. *)
Theorem filterHtmlData_null_or_nonempty (htmlJson mut : list IHtmlNode) (d : nat)
    (res : option (list IHtmlNode)) :
  filterHtmlData cleanText htmlJson d = Ok (mut, res) ->
  (res = None <-> existsb retainable htmlJson = false)
  /\ (forall r, res = Some r ->
        r <> [] /\ exists x, In x r /\ isParentCandidate x = true).
Proof.
  intros H. split; [apply (null_iff_nothing_retainable _ _ H) |].
  intros r ->.
  destruct (filterHtmlData_inv _ _ _ H) as (styles' & styleList & visited & _ & _ & _ & Hm & Hr).
  destruct (filter retained visited) as [| e el] eqn:Ef; [discriminate |].
  injection Hr as ->.
  assert (He : In e (filter retained visited)) by (rewrite Ef; left; reflexivity).
  apply filter_In in He. destruct He as [He _]. rewrite <- Hm in He.
  apply filter_In in He. destruct He as [_ Hc].
  split.
  - destruct styleList; discriminate.
  - exists e. split; [apply in_or_app; right; left; reflexivity | exact Hc].
Qed.

(** X8: a comment that is followed, among the parent candidates of its
    level, by two nodes that are no comments labels both of them, when
    they have lists of children: the second gets the same text as the
    first, unless a comment stands right before the comment. *)
Theorem comment_labels_two_nodes (htmlJson mut pre post : list IHtmlNode)
    (res : option (list IHtmlNode)) (c n1 n2 : IHtmlNode) (t : string)
    (cs1 cs2 : list IHtmlNode) (d : nat) :
  filterHtmlData cleanText htmlJson d = Ok (mut, res) ->
  filter isParentCandidate htmlJson = (pre ++ c :: n1 :: n2 :: post)%list ->
  type c = Some comment -> cleanText (content c) true = Some t ->
  typeIs (type n1) comment = false ->
  children n1 = JsVal cs1 -> children n2 = JsVal cs2 ->
  exists n1' n2',
    nth_error (filter isParentCandidate mut) (S (List.length pre)) = Some n1'
    /\ nth_error (filter isParentCandidate mut) (S (S (List.length pre))) = Some n2'
    /\ comment_ n2' = Some t
    /\ (flat_map (commentText cleanText) (lastTwo pre) = [] -> comment_ n1' = Some t).
Proof.
  intros H Hp Hc Ht Hn1 E1 E2.
  destruct (filterHtmlData_inv _ _ _ H) as (styles' & styleList & visited & _ & Hv & _ & -> & _).
  rewrite Hp in Hv. unfold visitParents in Hv.
  assert (Hi1 : nth_error (pre ++ c :: n1 :: n2 :: post) (S (List.length pre)) = Some n1).
  { rewrite nth_error_app2 by lia.
    replace (S (List.length pre) - List.length pre) with 1 by lia. reflexivity. }
  assert (Hi2 : nth_error (pre ++ c :: n1 :: n2 :: post) (S (S (List.length pre))) = Some n2).
  { rewrite nth_error_app2 by lia.
    replace (S (S (List.length pre)) - List.length pre) with 2 by lia. reflexivity. }
  destruct (mapM_nth _ _ _ Hv (nth_error_indexed _ _ Hi1)) as (n1' & Hn1' & Hv1).
  destruct (mapM_nth _ _ _ Hv (nth_error_indexed _ _ Hi2)) as (n2' & Hn2' & Hv2).
  simpl in Hv1, Hv2.
  destruct (@visitNode_comment _ _ _ _ _ _ _ _ E1 Hv1) as [Hc1 _].
  destruct (@visitNode_comment _ _ _ _ _ _ _ _ E2 Hv2) as [Hc2 _].
  exists n1', n2'. split; [exact Hn1' |]. split; [exact Hn2' |].
  replace (pre ++ c :: n1 :: n2 :: post)%list
    with ((pre ++ [c]) ++ n1 :: n2 :: post)%list in Hc1
    by (rewrite <- app_assoc; reflexivity).
  replace (S (List.length pre)) with (List.length (pre ++ [c])) in Hc1
    by (rewrite length_app; simpl; lia).
  rewrite previousNodes_split, parentComment_rev in Hc1.
  replace (pre ++ c :: n1 :: n2 :: post)%list
    with ((pre ++ [c; n1]) ++ n2 :: post)%list in Hc2
    by (rewrite <- app_assoc; reflexivity).
  replace (S (S (List.length pre))) with (List.length (pre ++ [c; n1])) in Hc2
    by (rewrite length_app; simpl; lia).
  rewrite previousNodes_split, parentComment_rev, lastTwo_snoc2 in Hc2.
  assert (Tc : commentText cleanText c = [t]).
  { unfold commentText. rewrite Hc, Ht. reflexivity. }
  assert (T1 : commentText cleanText n1 = []).
  { unfold commentText. rewrite Hn1. reflexivity. }
  split.
  - rewrite Hc2. simpl. rewrite Tc, T1. reflexivity.
  - intros Hnone. rewrite Hc1.
    destruct (last_two_cases pre) as [-> | [[a ->] | (pre' & b & a & ->)]].
    + simpl. rewrite Tc. reflexivity.
    + change (lastTwo ([a] ++ [c])) with [a; c]. simpl in *.
      rewrite app_nil_r in Hnone. rewrite Hnone, Tc. reflexivity.
    + rewrite lastTwo_snoc2 in Hnone. simpl in Hnone. rewrite app_nil_r in Hnone.
      apply app_eq_nil in Hnone. destruct Hnone as [_ Ha].
      rewrite <- app_assoc. simpl app.
      replace (pre' ++ [b; a; c])%list with ((pre' ++ [b]) ++ [a; c])%list
        by (rewrite <- app_assoc; reflexivity).
      rewrite lastTwo_snoc2. simpl. rewrite Ha, Tc. reflexivity.
Qed.

End MoreNormalizerProperties.

(** ** [getSassTree] *)

Section MoreBuilderProperties.

Variable slug : string -> bool -> string -> string.
Variable addMissingSuffix : string -> string -> string.
Variable o : ITwToSassOptions.

(** What one node does to the counters: the depth goes up when the node
    has children, the count of styles when it is rendered as a region. *)
Lemma renderNode_counters (n : IHtmlNode) (sub : nat -> string) (c : Counters) :
  snd (renderNode slug addMissingSuffix o n sub c)
  = mkCounters (deepth_ c + (if hasChildren n then 1 else 0))
               (styleCount_ c + (if isRegion n then 1 else 0)).
Proof.
  unfold renderNode, isRegion, hasChildren, isNull. destruct c as [d k]. simpl.
  destruct (filterAttributes n) as [| | fa], (children n) as [| | [| x cs]],
           (tagIs n "style"); simpl;
    rewrite ?Nat.add_0_r, ?Nat.add_1_r; try reflexivity;
    match goal with
    | |- context [if ?b then _ else _] => destruct b; reflexivity
    end.
Qed.

Lemma countersAfter_closed (l : list IHtmlNode) (c : Counters) :
  countersAfter slug addMissingSuffix o l c
  = mkCounters (deepth_ c + List.length (filter hasChildren l))
               (styleCount_ c + List.length (filter isRegion l)).
Proof.
  revert c. induction l as [| n l IH]; intros c.
  - destruct c. simpl. rewrite !Nat.add_0_r. reflexivity.
  - simpl countersAfter. rewrite IH, renderNode_counters. simpl.
    destruct (hasChildren n), (isRegion n); simpl; f_equal; lia.
Qed.

Lemma sassFrom_countersAfter (l1 l2 : list IHtmlNode) (c : Counters) :
  sassFrom slug addMissingSuffix o (l1 ++ l2) c
  = sassFrom slug addMissingSuffix o l1 c
    ++ sassFrom slug addMissingSuffix o l2 (countersAfter slug addMissingSuffix o l1 c).
Proof.
  revert c. induction l1 as [| n l1 IH]; intros c; [reflexivity |].
  simpl app. rewrite !sassFrom_cons, IH, append_assoc. reflexivity.
Qed.

Lemma sassFrom_app (l1 l2 : list IHtmlNode) (c : Counters) :
  sassFrom slug addMissingSuffix o (l1 ++ l2) c
  = sassFrom slug addMissingSuffix o l1 c
    ++ sassFrom slug addMissingSuffix o l2
         (mkCounters (deepth_ c + List.length (filter hasChildren l1))
                     (styleCount_ c + List.length (filter isRegion l1))).
Proof. rewrite sassFrom_countersAfter, countersAfter_closed. reflexivity. Qed.

(** X9: the text [getSassTree] makes of a list of nodes is the text it
    makes of the first part of the list followed by the text of the
    rest, rendered with the depth raised by the number of nodes of the
    first part that have children and with the count of styles at the
    number of them rendered as regions: nothing else of the first part
    reaches the rest. *)
Theorem getSassTree_app (l1 l2 : list IHtmlNode) (d : nat) :
  getSassTree slug addMissingSuffix o (l1 ++ l2) d
  = getSassTree slug addMissingSuffix o l1 d
    ++ sassFrom slug addMissingSuffix o l2
         (mkCounters (d + List.length (filter hasChildren l1))
                     (List.length (filter isRegion l1))).
Proof. rewrite !getSassTree_sassFrom, sassFrom_app. reflexivity. Qed.

(** A node that is no region is rendered without regard to the count of
    styles. *)
Lemma renderNode_styleCount (n : IHtmlNode) (sub : nat -> string) (d k k' : nat) :
  isRegion n = false ->
  fst (renderNode slug addMissingSuffix o n sub (mkCounters d k))
  = fst (renderNode slug addMissingSuffix o n sub (mkCounters d k')).
Proof.
  unfold renderNode, isRegion. intros H. simpl.
  destruct (isNull (filterAttributes n) && isNull (children n)); [reflexivity |].
  destruct (tagIs n "style"), (filterAttributes n) as [| | fa]; simpl in *;
    try discriminate;
    match goal with
    | |- context [if ?b then _ else _] => destruct b; reflexivity
    end.
Qed.

Lemma sassFrom_styleCount (l : list IHtmlNode) (d k k' : nat) :
  forallb (fun n => negb (isRegion n)) l = true ->
  sassFrom slug addMissingSuffix o l (mkCounters d k)
  = sassFrom slug addMissingSuffix o l (mkCounters d k').
Proof.
  revert d k k'. induction l as [| n l IH]; intros d k k' H; [reflexivity |].
  simpl in H. apply andb_true_iff in H. destruct H as [Hn Hl].
  apply negb_true_iff in Hn.
  rewrite !sassFrom_cons, !renderNode_counters, (renderNode_styleCount _ _ d k k' Hn).
  rewrite Hn. simpl. f_equal. apply IH. exact Hl.
Qed.

(** A leaf with a class list makes one block, named at the depth of the
    counters, and leaves the counters alone. *)
Lemma renderNode_leaf (n : IHtmlNode) (cl : string) (sub : nat -> string) (c : Counters) :
  leafWithClass n cl ->
  renderNode slug addMissingSuffix o n sub c
  = (Some (getClassName slug o n (deepth_ c) ++ "{@apply " ++ cl ++ ";}"), c).
Proof.
  intros (Ht & Ec & Hcl & fa & Ef & Ecl & Est).
  unfold renderNode, hasChildren, isNull, ownDeclarations.
  rewrite Ef, Ec, Ht, Ecl, Est. destruct c as [d k].
  destruct cl as [| a cl]; [contradiction |]. simpl.
  rewrite ?append_nil_r, ?append_assoc. reflexivity.
Qed.

Lemma leaf_counts (n : IHtmlNode) (cl : string) :
  leafWithClass n cl -> hasChildren n = false /\ isRegion n = false.
Proof.
  intros (Ht & Ec & _). unfold hasChildren, isRegion. rewrite Ec, Ht. auto.
Qed.

(** X10: two leaves that stand side by side are named at the same depth,
    the depth of the call raised by the number of nodes before them that
    have children: two [div] leaves without comments so get the same
    selector. *)
Theorem sibling_leaves_share_depth (pre post : list IHtmlNode) (n1 n2 : IHtmlNode)
    (cl1 cl2 : string) (c : Counters) :
  leafWithClass n1 cl1 ->
  leafWithClass n2 cl2 ->
  let k := deepth_ c + List.length (filter hasChildren pre) in
  sassFrom slug addMissingSuffix o (pre ++ n1 :: n2 :: post) c
  = sassFrom slug addMissingSuffix o pre c
    ++ (getClassName slug o n1 k ++ "{@apply " ++ cl1 ++ ";}")
    ++ (getClassName slug o n2 k ++ "{@apply " ++ cl2 ++ ";}")
    ++ sassFrom slug addMissingSuffix o post
         (mkCounters k (styleCount_ c + List.length (filter isRegion pre))).
Proof.
  intros H1 H2 k.
  rewrite sassFrom_countersAfter, countersAfter_closed. fold k. f_equal.
  rewrite !sassFrom_cons, (renderNode_leaf _ _ H1), (renderNode_leaf _ _ H2).
  simpl. rewrite !append_nil_r. reflexivity.
Qed.

(** X11: nodes that have no [style] tag and no class or style value, at
    any depth, render to the empty text, whatever the depth of the call
    and the options. *)
Theorem getSassTree_of_undecorated (l : list IHtmlNode) (d : nat) :
  forallb quiet l = true -> getSassTree slug addMissingSuffix o l d = "".
Proof. intros H. apply getSassTree_quiet. exact H. Qed.

(** With a comment as name the whole name is kept when it fits the
    limit, and nothing of it when the limit is not positive. *)
Lemma truncate_bounds (m : Z) (s : string) :
  ((Z.of_nat (String.length s) <= m)%Z -> truncate m s = s)
  /\ ((m <= 0)%Z -> truncate m s = "").
Proof.
  unfold truncate. split; intros H.
  - destruct (Z.gtb_spec (Z.of_nat (String.length s)) m); [lia | reflexivity].
  - destruct (Z.gtb_spec (Z.of_nat (String.length s)) m) as [Hgt | Hle].
    + replace (Z.to_nat m) with 0 by lia. destruct s; reflexivity.
    + destruct s; [reflexivity | simpl in Hle; lia].
Qed.

(** X12: for a node named after its comment, [getClassName] keeps the
    whole of prefix and slug when their length is within
    [maxClassNameLength], and drops both when the limit is zero or
    negative, which leaves the dot and the suffix. *)
Theorem getClassName_limits (node : IHtmlNode) (c : string) (d : nat) :
  comment_ node = Some c ->
  c <> "" ->
  useCommentBlocksAsClassName o = true ->
  let name := prefix (classNameOptions o)
              ++ slug c (lowercase (classNameOptions o)) (replaceWith (classNameOptions o)) in
  ((Z.of_nat (String.length name) <= maxClassNameLength o)%Z ->
   getClassName slug o node d
   = classComment o node ++ "." ++ name ++ suffix (classNameOptions o))
  /\ ((maxClassNameLength o <= 0)%Z ->
      getClassName slug o node d
      = classComment o node ++ "." ++ suffix (classNameOptions o)).
Proof.
  intros Hc Hne Hu name.
  assert (E : getClassName slug o node d
              = classComment o node
                ++ "." ++ truncate (maxClassNameLength o) name
                ++ suffix (classNameOptions o)).
  { unfold getClassName. rewrite Hc, Hu. simpl.
    destruct c as [| a c']; [contradiction |]. reflexivity. }
  split; intros H; rewrite E.
  - rewrite (proj1 (truncate_bounds _ name) H). reflexivity.
  - rewrite (proj2 (truncate_bounds _ name) H). reflexivity.
Qed.

End MoreBuilderProperties.

(** ** [convertToSass] and the pipeline *)

Section MoreConvertProperties.

Variable cleanText : option string -> bool -> option string.
Variable addMissingSuffix : string -> string -> string.
Variable fixFomatterApplyIssue : string -> string.
Variable parse : string -> list IHtmlNode.
Variable slug : string -> bool -> string -> string.
Variable beautifyCss : string -> CSSBeautifyOptions -> string.

Local Notation "'convert'" :=
  (convertToSass cleanText addMissingSuffix fixFomatterApplyIssue parse slug beautifyCss).
Local Notation "'convertText'" :=
  (convertHtml cleanText addMissingSuffix fixFomatterApplyIssue parse slug beautifyCss).

(** X13: the text made of a list that normalization returns is the
    regions of the style elements of the level, numbered from 1, followed
    by what [getSassTree] makes of the kept nodes alone: the regions and
    their count have no effect on the blocks. *)
Theorem regions_then_blocks (o : ITwToSassOptions) (htmlJson mut res : list IHtmlNode)
    (d deepth : nat) :
  filterHtmlData cleanText htmlJson d = Ok (mut, Some res) ->
  getSassTree slug addMissingSuffix o res deepth
  = regionsFrom 0 (map styleText (filter (fun x => tagIs x "style") htmlJson))
    ++ getSassTree slug addMissingSuffix o
         (filter retained (filter isParentCandidate mut)) deepth.
Proof.
  intros H.
  destruct (filterHtmlData_inv _ _ _ H)
    as (styles' & styleList & visited & Hs & _ & _ & Hm & Hres).
  symmetry in Hres. apply filter_nonempty_eq in Hres.
  rewrite (getStyleContents_texts _ Hs) in Hres.
  rewrite Hres, !getSassTree_sassFrom, sassFrom_styleNodes, Hm. f_equal.
  apply sassFrom_styleCount. apply forallb_forall. intros x Hx.
  apply filter_In in Hx. destruct Hx as [Hx _]. rewrite <- Hm in Hx.
  apply filter_In in Hx. destruct Hx as [_ Hc].
  rewrite (candidate_no_region _ Hc). reflexivity.
Qed.

(** The [defaultOptions] a call leaves. *)
Lemma convertToSass_state (d0 : ITwToSassOptions) (html : option string)
    (options : option OptionsArg) :
  fst (convert d0 html options)
  = if passesGuard html then effective d0 options else d0.
Proof.
  unfold convertToSass, passesGuard, effective.
  destruct html as [h |]; [| reflexivity].
  destruct (truthy h && (0 <? String.length h)%nat); reflexivity.
Qed.

(** The [defaultOptions] that a sequence of calls leaves. *)
Lemma runCalls_state (d0 : ITwToSassOptions)
    (calls : list (option string * option OptionsArg)) :
  fst (runCalls convert d0 calls) = configAfter d0 calls.
Proof.
  revert d0. induction calls as [| [html options] calls IH]; intros d0; [reflexivity |].
  simpl. rewrite (surjective_pairing (convert d0 html options)).
  rewrite (surjective_pairing (runCalls convert (fst (convert d0 html options)) calls)).
  simpl. rewrite IH, convertToSass_state. reflexivity.
Qed.

(** One key of the [defaultOptions] that a sequence of calls leaves. *)
Lemma configAfter_key {A} (get' : OptionsArg -> option A) (get : ITwToSassOptions -> A)
    (d0 : ITwToSassOptions) (calls : list (option string * option OptionsArg)) :
  (forall d o, get (spread d o) = match get' o with Some v => v | None => get d end) ->
  get (configAfter d0 calls) = lastSupplied get' (get d0) calls.
Proof.
  intros Hget. revert d0.
  induction calls as [| [html options] calls IH]; intros d0; [reflexivity |].
  cbn [configAfter lastSupplied]. rewrite IH. f_equal.
  destruct options as [o |]; simpl.
  - destruct (passesGuard html); [apply Hget | reflexivity].
  - destruct (passesGuard html); reflexivity.
Qed.

(** X14: the [defaultOptions] that a sequence of calls leaves is the
    merge, in the order of the calls, of the options of the calls whose
    text is not empty: each key holds the value supplied last by such a
    call, or its first value when none supplies it.  The outcome depends
    on no collaborator and on no result: a call that returns [null] or
    raises merges its options as well. *)
Theorem configuration_after_calls (d0 : ITwToSassOptions)
    (calls : list (option string * option OptionsArg)) :
  let left := fst (runCalls convert d0 calls) in
  left = configAfter d0 calls
  /\ formatOutput left = lastSupplied formatOutput' (formatOutput d0) calls
  /\ useCommentBlocksAsClassName left
     = lastSupplied useCommentBlocksAsClassName' (useCommentBlocksAsClassName d0) calls
  /\ maxClassNameLength left
     = lastSupplied maxClassNameLength' (maxClassNameLength d0) calls
  /\ printComments left = lastSupplied printComments' (printComments d0) calls
  /\ formatterOptions left
     = lastSupplied formatterOptions' (formatterOptions d0) calls
  /\ classNameOptions left
     = lastSupplied classNameOptions' (classNameOptions d0) calls.
Proof.
  intros left. unfold left. rewrite runCalls_state.
  split; [reflexivity |].
  split; [| split; [| split; [| split; [| split]]]];
    apply configAfter_key; intros d o; reflexivity.
Qed.

(** X15: on a text that is not empty, whose cleaned text is not [null]
    and whose parse tree gives every node with the tag [style] an array
    of children, [convertToSass] does not raise, and it returns [null] exactly when no element or comment
    node of the top level, other than a style element, has an attribute
    list or children other than [null]. *)
Theorem convertToSass_returns (d0 : ITwToSassOptions) (h t : string)
    (options : option OptionsArg) :
  h <> "" ->
  cleanText (Some h) false = Some t ->
  forallb wellShaped (parse t) = true ->
  (exists out, snd (convert d0 (Some h) options) = Ok out)
  /\ (snd (convert d0 (Some h) options) = Ok None
      <-> existsb retainable (parse t) = false).
Proof.
  intros Hh Et Hw.
  destruct (wellShaped_level cleanText (l := parse t) 1)
    as [[mut res] E].
  { apply Forall_forall. intros n _. apply wellShaped_tree. }
  { exact Hw. }
  unfold convertToSass. rewrite (truthy_nonempty Hh). cbn [snd].
  rewrite (@convertHtml_of_normalized _ _ _ _ _ _ _ _ _ _ _ Et E).
  pose proof (@null_iff_nothing_retainable _ _ _ _ _ E) as Hn.
  destruct res as [nodes |].
  - split; [eexists; reflexivity |]. split; intros X; [discriminate |].
    apply Hn in X. discriminate.
  - split; [eexists; reflexivity |]. split; intros _; [apply Hn |]; reflexivity.
Qed.

(** X16: a document that is one element without children, with a
    [class] attribute whose cleaned value [cl] is not empty, and a tag
    other than [style], converts to one block: the comment header when
    [printComments] is on, the tag, or [.class-div-0] for a [div], and
    the body [@apply cl;]. *)
Theorem single_element_with_class (o : ITwToSassOptions) (h t tag cl : string)
    (v : option string) :
  tag <> "style" ->
  cleanText (Some h) false = Some t ->
  parse t = [elementNode tag [mkAttr "class" v] []] ->
  cleanText v false = Some cl ->
  cl <> "" ->
  convertText o h
  = Ok (Some (finish fixFomatterApplyIssue beautifyCss o
                ((if printComments o then "/* " ++ tag ++ " -> 1 */" else "")
                 ++ selectorOfTag tag 0 ++ "{@apply " ++ cl ++ ";}"))).
Proof.
  intros Ht Hc Hp Hv Hcl.
  assert (Et : String.eqb tag "style" = false) by (apply String.eqb_neq; exact Ht).
  assert (E : filterHtmlData cleanText [elementNode tag [mkAttr "class" v] []] 1
              = Ok ([set_filterAttributes (JsVal {| style := None; class := Some cl |})
                       (set_attributes (Some [mkAttr "class" (Some cl)])
                          (set_order (Some 1)
                             (set_comment (Some "")
                                (elementNode tag [mkAttr "class" v] []))))],
                    Some [set_filterAttributes (JsVal {| style := None; class := Some cl |})
                            (set_attributes (Some [mkAttr "class" (Some cl)])
                               (set_order (Some 1)
                                  (set_comment (Some "")
                                     (elementNode tag [mkAttr "class" v] []))))])).
  { unfold filterHtmlData, filterArray, isParentCandidate, tagIs. simpl.
    rewrite Et. simpl. unfold cleanAttribute. simpl. rewrite Hv. simpl.
    unfold retained. simpl. unfold isParentCandidate, tagIs. simpl. rewrite Et.
    reflexivity. }
  rewrite <- Hp in E.
  rewrite (@convertHtml_of_normalized _ _ _ _ _ _ _ _ _ _ _ Hc E). do 3 f_equal.
  rewrite getSassTree_sassFrom, sassFrom_cons.
  rewrite (renderNode_leaf slug addMissingSuffix o (cl := cl)).
  - cbn [fst snd joinO deepth_]. unfold sassFrom. simpl renderNodes. simpl joinO.
    rewrite !append_nil_r.
    match goal with
    | |- getClassName slug o ?n 0 ++ _ = _ =>
        assert (En : getClassName slug o n 0
                     = (if printComments o then "/* " ++ tag ++ " -> 1 */" else "")
                       ++ selectorOfTag tag 0)
    end.
    { unfold getClassName, classComment, selectorOfTag, tagIs. simpl.
      destruct (String.eqb_spec tag "div") as [-> | _];
        destruct (printComments o); reflexivity. }
    rewrite En, append_assoc. reflexivity.
  - unfold leafWithClass, tagIs. simpl. rewrite Et.
    repeat split; try assumption. eexists. repeat split.
Qed.

End MoreConvertProperties.

(** ** The further properties on the example documents *)

Module MoreExamples.

Import Fixture.

Lemma getStyleContents_outcome_witness :
  getStyleContents styleOnlyTree
  = Ok ([elementNode "style" [] [textNode "color: red"]], [styleNode "color: red"])
  /\ List.length [styleNode "color: red"] = List.length styleOnlyTree.
Proof.
  assert (H : getStyleContents styleOnlyTree
              = Ok ([elementNode "style" [] [textNode "color: red"]],
                    [styleNode "color: red"])) by reflexivity.
  split; [exact H |].
  exact (proj1 (proj2 (getStyleContents_outcome styleOnlyTree) _ _ H)).
Defined.

Lemma filterHtmlData_frame_witness :
  filterHtmlData cleanText cardTree 1 = Ok (Fixture2.cardMut, Some Fixture2.cardRes)
  /\ map tagName Fixture2.cardMut = map tagName cardTree.
Proof.
  assert (H : filterHtmlData cleanText cardTree 1
              = Ok (Fixture2.cardMut, Some Fixture2.cardRes)) by reflexivity.
  split; [exact H |].
  exact (proj1 (proj2 (proj2 (filterHtmlData_frame cleanText cardTree 1 H)))).
Defined.

Lemma order_is_depth_witness :
  filterHtmlData cleanText cardTree 1 = Ok (Fixture2.cardMut, Some Fixture2.cardRes)
  /\ forallb (levelled 1) Fixture2.cardRes = true.
Proof.
  assert (H : filterHtmlData cleanText cardTree 1
              = Ok (Fixture2.cardMut, Some Fixture2.cardRes)) by reflexivity.
  split; [exact H |].
  exact (proj1 (order_is_depth cleanText cardTree 1 H)).
Defined.

Lemma regions_at_call_level_only_witness :
  (forallb regionFree cardTree = true
   /\ filterHtmlData cleanText cardTree 1 = Ok (Fixture2.cardMut, Some Fixture2.cardRes))
  /\ exists styleList elementList,
       Fixture2.cardRes = (styleList ++ elementList)%list
       /\ Forall (fun s => exists c, s = styleNode c) styleList
       /\ forallb regionFree elementList = true.
Proof.
  assert (H1 : forallb regionFree cardTree = true) by reflexivity.
  assert (H2 : filterHtmlData cleanText cardTree 1
               = Ok (Fixture2.cardMut, Some Fixture2.cardRes)) by reflexivity.
  split; [split; assumption |].
  exact (regions_at_call_level_only cleanText cardTree 1 H1 H2).
Defined.

Lemma filterHtmlData_never_raises_witness :
  forallb wellShaped cardTree = true
  /\ exists mut res, filterHtmlData cleanText cardTree 1 = Ok (mut, res).
Proof.
  assert (H : forallb wellShaped cardTree = true) by reflexivity.
  split; [exact H |].
  exact (filterHtmlData_never_raises cleanText cardTree 1 H).
Defined.

Lemma filterHtmlData_null_or_nonempty_witness :
  filterHtmlData cleanText styleOnlyTree 1
  = Ok ([elementNode "style" [] [textNode "color: red"]], None)
  /\ (@None (list IHtmlNode) = None <-> existsb retainable styleOnlyTree = false).
Proof.
  assert (H : filterHtmlData cleanText styleOnlyTree 1
              = Ok ([elementNode "style" [] [textNode "color: red"]], None))
    by reflexivity.
  split; [exact H |].
  exact (proj1 (filterHtmlData_null_or_nonempty cleanText styleOnlyTree 1 H)).
Defined.

(** The comment [Title] labels the [div] and the [p] that follow it. *)
Lemma comment_labels_two_nodes_witness :
  let c := commentNode " Title " in
  let n1 := elementNode "div" [mkAttr "class" (Some "p-4")] [] in
  let n2 := elementNode "p" [mkAttr "class" (Some "m-1")] [] in
  (filterHtmlData cleanText twoCommentsTree 1 = Ok (twoCommentsMut, Some twoCommentsRes)
   /\ filter isParentCandidate twoCommentsTree
      = ([commentNode " Card "] ++ c :: n1 :: n2 :: [])%list
   /\ type c = Some comment /\ cleanText (content c) true = Some "Title"
   /\ typeIs (type n1) comment = false
   /\ children n1 = JsVal [] /\ children n2 = JsVal [])
  /\ exists n2',
       nth_error (filter isParentCandidate twoCommentsMut) 3 = Some n2'
       /\ comment_ n2' = Some "Title".
Proof.
  intros c n1 n2.
  assert (H1 : filterHtmlData cleanText twoCommentsTree 1
               = Ok (twoCommentsMut, Some twoCommentsRes)) by reflexivity.
  assert (H2 : filter isParentCandidate twoCommentsTree
               = ([commentNode " Card "] ++ c :: n1 :: n2 :: [])%list) by reflexivity.
  assert (H3 : type c = Some comment) by reflexivity.
  assert (H4 : cleanText (content c) true = Some "Title") by reflexivity.
  assert (H5 : typeIs (type n1) comment = false) by reflexivity.
  assert (H6 : children n1 = JsVal []) by reflexivity.
  assert (H7 : children n2 = JsVal []) by reflexivity.
  split; [repeat split; assumption |].
  destruct (comment_labels_two_nodes cleanText twoCommentsTree [commentNode " Card "] []
              c n1 n2 1 H1 H2 H3 H4 H5 H6 H7) as (n1' & n2' & _ & Hn2 & Hc2 & _).
  exists n2'. split; [exact Hn2 | exact Hc2].
Defined.

(** Two [div] leaves after a node with children: both are [.class-div-1]. *)
Lemma sibling_leaves_share_depth_witness :
  let o := spread defaultOptions0 rawOutput in
  (leafWithClass (Fixture2.leafDiv "a") "a" /\ leafWithClass (Fixture2.leafDiv "b") "b")
  /\ sassFrom slug addMissingSuffix o
       (Fixture2.cardRes ++ [Fixture2.leafDiv "a"; Fixture2.leafDiv "b"])
       (mkCounters 0 0)
     = sassFrom slug addMissingSuffix o Fixture2.cardRes (mkCounters 0 0)
       ++ "/* div -> 1 */.class-div-1{@apply a;}"
       ++ "/* div -> 1 */.class-div-1{@apply b;}".
Proof.
  intros o.
  assert (H1 : leafWithClass (Fixture2.leafDiv "a") "a").
  { repeat split; try discriminate. eexists. repeat split. }
  assert (H2 : leafWithClass (Fixture2.leafDiv "b") "b").
  { repeat split; try discriminate. eexists. repeat split. }
  split; [split; assumption |].
  exact (sibling_leaves_share_depth slug addMissingSuffix o Fixture2.cardRes []
           (mkCounters 0 0) H1 H2).
Defined.

Lemma getSassTree_of_undecorated_witness :
  forallb quiet emptyDivTree = true
  /\ getSassTree slug addMissingSuffix defaultOptions0 emptyDivTree 0 = "".
Proof.
  assert (H : forallb quiet emptyDivTree = true) by reflexivity.
  split; [exact H |].
  exact (getSassTree_of_undecorated slug addMissingSuffix defaultOptions0 emptyDivTree 0 H).
Defined.

(** The name [abcdef] under the limit of 50, and under a limit of 0. *)
Lemma getClassName_limits_witness :
  let o := spread defaultOptions0 namedByComment in
  (comment_ namedDiv = Some "abcdef" /\ "abcdef" <> ""
   /\ useCommentBlocksAsClassName o = true
   /\ (Z.of_nat (String.length ("" ++ slug "abcdef" true "-")) <= 50)%Z)
  /\ getClassName slug o namedDiv 0 = classComment o namedDiv ++ ".abcdef".
Proof.
  intros o.
  assert (H1 : comment_ namedDiv = Some "abcdef") by reflexivity.
  assert (H2 : "abcdef" <> "") by discriminate.
  assert (H3 : useCommentBlocksAsClassName o = true) by reflexivity.
  assert (H4 : (Z.of_nat (String.length ("" ++ slug "abcdef" true "-")) <= 50)%Z)
    by (vm_compute; discriminate).
  split; [repeat split; assumption |].
  exact (proj1 (getClassName_limits slug o namedDiv 0 H1 H2 H3) H4).
Defined.

Lemma regions_then_blocks_witness :
  filterHtmlData cleanText styleAndButtonTree 1
  = Ok (styleAndButtonMut, Some styleAndButtonRes)
  /\ getSassTree slug addMissingSuffix defaultOptions0 styleAndButtonRes 0
     = styleRegion 1 (Some "color: red")
       ++ getSassTree slug addMissingSuffix defaultOptions0
            (filter retained (filter isParentCandidate styleAndButtonMut)) 0.
Proof.
  assert (H : filterHtmlData cleanText styleAndButtonTree 1
              = Ok (styleAndButtonMut, Some styleAndButtonRes)) by reflexivity.
  split; [exact H |].
  rewrite (@regions_then_blocks cleanText addMissingSuffix slug defaultOptions0
             styleAndButtonTree _ _ 1 0 H).
  reflexivity.
Defined.

(** Four calls: the first turns the formatter off, the second has no
    text and merges nothing, the third gives no options, and the fourth,
    on a blank, sets the limit to ten. *)
Lemma configuration_after_calls_witness :
  let calls :=
    [(Some emptyDiv, Some rawOutput);
     (None, Some namedByComment);
     (Some card, None);
     (Some " ", Some (mkOptionsArg None None (Some 10%Z) None None None))] in
  let left := fst (runCalls Fixture.convertToSass defaultOptions0 calls) in
  (formatOutput defaultOptions0 = true /\ maxClassNameLength defaultOptions0 = 50%Z)
  /\ formatOutput left = false
  /\ useCommentBlocksAsClassName left = false
  /\ maxClassNameLength left = 10%Z
  /\ printComments left = true.
Proof.
  intros calls left.
  pose proof (configuration_after_calls cleanText addMissingSuffix fixFomatterApplyIssue
                parse slug beautifyCss defaultOptions0 calls)
    as (_ & Hf & Hu & Hm & Hp & _).
  split; [split; reflexivity |].
  split; [exact Hf |]. split; [exact Hu |]. split; [exact Hm | exact Hp].
Defined.

Lemma convertToSass_returns_witness :
  (card <> ""
   /\ cleanText (Some card) false = Some card
   /\ forallb wellShaped (parse card) = true)
  /\ exists out, snd (Fixture.convertToSass defaultOptions0 (Some card) None) = Ok out.
Proof.
  assert (H1 : card <> "") by discriminate.
  assert (H2 : cleanText (Some card) false = Some card) by reflexivity.
  assert (H3 : forallb wellShaped (parse card) = true) by reflexivity.
  split; [split; [| split]; assumption |].
  exact (proj1 (convertToSass_returns cleanText addMissingSuffix fixFomatterApplyIssue
                  parse slug beautifyCss defaultOptions0 None H1 H2 H3)).
Defined.

(** A button with a class. *)
Lemma single_element_with_class_witness :
  let o := spread defaultOptions0 rawOutput in
  ("button" <> "style"
   /\ cleanText (Some Fixture2.button) false = Some Fixture2.button
   /\ Fixture2.parse Fixture2.button
      = [elementNode "button" [mkAttr "class" (Some "btn")] []]
   /\ cleanText (Some "btn") false = Some "btn"
   /\ "btn" <> "")
  /\ convertHtml cleanText addMissingSuffix fixFomatterApplyIssue Fixture2.parse slug
       beautifyCss o Fixture2.button
     = Ok (Some "/* button -> 1 */button{@apply btn;}").
Proof.
  intros o.
  assert (H1 : "button" <> "style") by discriminate.
  assert (Hc : cleanText (Some Fixture2.button) false = Some Fixture2.button)
    by reflexivity.
  assert (H2 : Fixture2.parse Fixture2.button
               = [elementNode "button" [mkAttr "class" (Some "btn")] []]) by reflexivity.
  assert (H3 : cleanText (Some "btn") false = Some "btn") by reflexivity.
  assert (H4 : "btn" <> "") by discriminate.
  split; [repeat split; assumption |].
  exact (@single_element_with_class cleanText addMissingSuffix fixFomatterApplyIssue
           Fixture2.parse slug beautifyCss o Fixture2.button Fixture2.button
           "button" "btn" (Some "btn") H1 Hc H2 H3 H4).
Defined.

End MoreExamples.
